(** * Otsu thresholding (project/otsu.py): a shallow embedding and its properties

    The three functions of [project/otsu.py] are embedded here:
    [threshold] (global Otsu), [segmented_threshold] (one Otsu threshold per
    block of a grid) and [sliding_window_threshold] (Otsu thresholds averaged
    over overlapping windows).

    Modelling choices.
    - A numpy array is a list of rows together with its number of columns
      (so that the shapes (0, w) and (h, 0) are both representable) and,
      for an image, its element type.
    - Python integers are [Z]; array indices and lengths are [nat].
    - The real-number arithmetic of the variance scan (numpy floating point
      in the source) is carried out exactly, on canonical rationals [Qc];
      the non-finite floating-point values that the source can produce
      ([float('inf')], a division by zero, the mean of an empty array) are
      explicit constructors of [float].
    - Storing a Python integer into an array of an unsigned integer element
      type keeps it modulo 2^width (numpy's unsafe cast, as used by
      [np.full_like] in the NumPy 1.x releases the project was written for,
      and the wrap-around of the in-place [+=] on integer arrays).
    - [cv2.calcHist] is an external library function; what it does on a
      region without samples is a parameter of the model. *)

From Stdlib Require Import ZArith List Lia Bool Arith QArith Qcanon Permutation.
Import ListNotations.

Local Open Scope Z_scope.

(** ** Errors *)

Inductive exn : Type :=
| InvalidInput                  (* the histogram builder rejected an empty region *)
| ValueError.                   (* raise ValueError(...) *)

Inductive result (A : Type) : Type :=
| Ok (a : A)
| Raise (e : exn).
Arguments Ok {A} a.
Arguments Raise {A} e.

Definition bind {A B} (m : result A) (f : A -> result B) : result B :=
  match m with
  | Ok a => f a
  | Raise e => Raise e
  end.

Notation "x <- m ;; k" := (bind m (fun x => k))
  (at level 61, m at next level, right associativity).

(** A [for] loop whose body may raise. *)
Fixpoint for_each {S X} (body : S -> X -> result S) (xs : list X) (s : S)
  : result S :=
  match xs with
  | [] => Ok s
  | x :: xs' => s' <- body s x ;; for_each body xs' s'
  end.

(** ** Python built-ins *)

(** [range(0, stop, step)] for [step > 0]. *)
Definition py_range (stop step : Z) : list Z :=
  map (fun k => Z.of_nat k * step)
      (seq 0 (Z.to_nat ((stop + step - 1) / step))).

(** [l[lo:hi]] for non-negative bounds; out-of-range bounds are clipped. *)
Definition slice {A} (lo hi : nat) (l : list A) : list A :=
  skipn lo (firstn hi l).

(** [enumerate(l)] *)
Definition enumerate {A} (l : list A) : list (nat * A) :=
  combine (seq 0 (length l)) l.

(** Map with the index of each element. *)
Fixpoint imap_from {A B} (i : nat) (f : nat -> A -> B) (l : list A) : list B :=
  match l with
  | [] => []
  | x :: l' => f i x :: imap_from (S i) f l'
  end.
Definition imap {A B} := @imap_from A B 0.

(** ** Numbers *)

Definition Z2Qc (z : Z) : Qc := Q2Qc (inject_Z z).

(** [sum(l)]: Python adds from the left, starting at 0. *)
Definition sum (l : list Qc) : Qc := fold_left Qcplus l 0%Qc.

Definition sumZ (l : list Z) : Z := fold_left Z.add l 0.

(** Floating-point values: the finite ones (kept exact) and the non-finite
    ones that the source can produce. *)
Inductive float : Type :=
| Fin (q : Qc)
| PInf
| NInf
| NaN.

Definition Qc_ltb (x y : Qc) : bool :=
  match (x ?= y)%Qc with Lt => true | _ => false end.

(** [x < y] on floats; any comparison with NaN is false. *)
Definition float_ltb (x y : float) : bool :=
  match x, y with
  | Fin a, Fin b => Qc_ltb a b
  | Fin _, PInf => true
  | NInf, Fin _ => true
  | NInf, PInf => true
  | _, _ => false
  end.

Definition float_add (x y : float) : float :=
  match x, y with
  | Fin a, Fin b => Fin (a + b)%Qc
  | NaN, _ | _, NaN => NaN
  | PInf, NInf | NInf, PInf => NaN
  | PInf, _ | _, PInf => PInf
  | NInf, _ | _, NInf => NInf
  end.

(** [x / n] for a float [x] and an integer count [n >= 0] *)
Definition float_div_count (x : float) (n : Z) : float :=
  if n =? 0 then
    match x with
    | Fin a => if Qc_eq_bool a 0%Qc then NaN
               else if Qc_ltb 0%Qc a then PInf else NInf
    | other => other
    end
  else
    match x with
    | Fin a => Fin (a / Z2Qc n)%Qc
    | other => other
    end.

(** ** Arrays and images *)

Inductive dtype : Type := uint8 | uint16.

Definition width_of (d : dtype) : Z :=
  match d with uint8 => 8 | uint16 => 16 end.

(** Storing the Python integer [z] in an array of element type [d]. *)
Definition cast (d : dtype) (z : Z) : Z := z mod 2 ^ width_of d.

Record ndarray (A : Type) : Type := Array {
  ncols : nat;
  rows : list (list A)
}.
Arguments Array {A} ncols rows.
Arguments ncols {A} n.
Arguments rows {A} n.

Definition nrows {A} (a : ndarray A) : nat := length (rows a).
Definition size {A} (a : ndarray A) : nat := (nrows a * ncols a)%nat.

(** Every row has [ncols] cells. *)
Definition rectangular {A} (a : ndarray A) : Prop :=
  Forall (fun r => length r = ncols a) (rows a).

Record gray_image : Type := Image {
  dtype_of : dtype;
  pixels : ndarray Z
}.

Definition height (im : gray_image) : nat := nrows (pixels im).
Definition length_of (im : gray_image) : nat := ncols (pixels im).
Definition num_samples (im : gray_image) : nat := size (pixels im).

(** [a[r0:r1, c0:c1]] *)
Definition slice2 {A} (r0 r1 c0 c1 : nat) (a : ndarray A) : ndarray A :=
  Array (Nat.min c1 (ncols a) - Nat.min c0 (ncols a))
        (map (slice c0 c1) (slice r0 r1 (rows a))).

Definition image_slice (r0 r1 c0 c1 : nat) (im : gray_image) : gray_image :=
  Image (dtype_of im) (slice2 r0 r1 c0 c1 (pixels im)).

Definition in_slice (lo hi i : nat) : bool := (lo <=? i)%nat && (i <? hi)%nat.

(** Update of the cells of [a[r0:r1, c0:c1]]: the cell at offset [(i, j)]
    inside the slice becomes [f i j old]; the other cells are kept. *)
Definition update_slice {A} (f : nat -> nat -> A -> A)
  (r0 r1 c0 c1 : nat) (a : ndarray A) : ndarray A :=
  Array (ncols a)
    (imap (fun i row =>
             if in_slice r0 r1 i
             then imap (fun j x =>
                          if in_slice c0 c1 j then f (i - r0) (j - c0) x else x)%nat
                       row
             else row)
          (rows a)).

Definition cell {A} (d : A) (a : ndarray A) (i j : nat) : A :=
  nth j (nth i (rows a) []) d.

Definition array_map {A B} (f : A -> B) (a : ndarray A) : ndarray B :=
  Array (ncols a) (map (map f) (rows a)).

(** [np.full_like(image, fill_value)] *)
Definition full_like (im : gray_image) (fill_value : Z) : gray_image :=
  Image (dtype_of im)
        (Array (length_of im)
               (repeat (repeat (cast (dtype_of im) fill_value) (length_of im))
                       (height im))).

(** [np.zeros_like(image)] *)
Definition zeros_like (im : gray_image) : gray_image :=
  Image (dtype_of im)
        (Array (length_of im) (repeat (repeat 0 (length_of im)) (height im))).

(** [np.zeros_like(image, dtype=np.float64)] *)
Definition zeros_like_float (im : gray_image) : ndarray float :=
  Array (length_of im)
        (repeat (repeat (Fin 0%Qc) (length_of im)) (height im)).

(** [np.mean(a)]: the mean of no value is NaN. *)
Definition mean (im : gray_image) : float :=
  let cells := concat (rows (pixels im)) in
  match cells with
  | [] => NaN
  | _ => Fin (Z2Qc (sumZ cells) / Z2Qc (Z.of_nat (length cells)))%Qc
  end.

(** ** The variance scan of [threshold] *)

Section Scan.

Variable gray_level_probabilities : list Qc.

(** The body of the loop up to the comparison: [None] when the candidate
    is skipped by [continue], otherwise the intra-class variance. *)
Definition intraclass_variance (threshold : nat) : option Qc :=
  let lower := firstn (threshold + 1) gray_level_probabilities in
  let upper := skipn (threshold + 1) gray_level_probabilities in
  let lower_group_probability := sum lower in
  let upper_group_probability := sum upper in
  if Qc_eq_bool lower_group_probability 0%Qc
     || Qc_eq_bool upper_group_probability 0%Qc
  then None
  else
    let lower_group_mean :=
      (sum (map (fun '(gray_level, probability) =>
                   Z2Qc (Z.of_nat gray_level) * probability)
                (enumerate lower))
       / lower_group_probability)%Qc in
    let upper_group_mean :=
      (sum (map (fun '(gray_level, probability) =>
                   Z2Qc (Z.of_nat gray_level) * probability)
                (enumerate upper))
       / upper_group_probability)%Qc in
    let lower_group_variance :=
      (sum (map (fun '(gray_level, probability) =>
                   ((Z2Qc (Z.of_nat gray_level) - lower_group_mean) ^ 2)
                   * probability)
                (enumerate lower))
       / lower_group_probability)%Qc in
    let upper_group_variance :=
      (sum (map (fun '(gray_level, probability) =>
                   ((Z2Qc (Z.of_nat gray_level) - upper_group_mean) ^ 2)
                   * probability)
                (enumerate upper))
       / upper_group_probability)%Qc in
    Some (lower_group_probability * lower_group_variance
          + upper_group_probability * upper_group_variance)%Qc.

End Scan.

(** [gray_level_probabilities] of [threshold] *)
Definition probabilities (histogram : list Z) (num_pixels : Z) : list Qc :=
  map (fun bin_count => (Z2Qc bin_count / Z2Qc num_pixels)%Qc) histogram.

(** The loop state: [(best_threshold, min_intraclass_variance)]. *)
Definition scan_state : Type := (Z * float)%type.

Definition scan_init : scan_state := (-1, PInf).

Definition scan_step (J : nat -> option Qc) (st : scan_state) (threshold : nat)
  : scan_state :=
  match J threshold with
  | None => st
  | Some v =>
      if float_ltb (Fin v) (snd st) then (Z.of_nat threshold, Fin v) else st
  end.

Definition scan (J : nat -> option Qc) (n : nat) : scan_state :=
  fold_left (scan_step J) (seq 0 n) scan_init.

(** [best_threshold] when the loop of [threshold] ends. *)
Definition scan_best_threshold (gray_level_probabilities : list Qc) : Z :=
  fst (scan (intraclass_variance gray_level_probabilities)
            (length gray_level_probabilities)).

(** ** The three functions of [project/otsu.py] *)

Definition array_map2 {A B C} (f : A -> B -> C) (a : ndarray A) (b : ndarray B)
  : ndarray C :=
  Array (ncols a)
        (map (fun '(ra, rb) => map (fun '(x, y) => f x y) (combine ra rb))
             (combine (rows a) (rows b))).

(** The offsets visited by two nested [for] loops over [range(0, stop, step)],
    outer loop first. *)
Definition grid_offsets (vstop vstep hstop hstep : Z) : list (Z * Z) :=
  flat_map (fun vertical_offset =>
              map (fun horizontal_offset => (vertical_offset, horizontal_offset))
                  (py_range hstop hstep))
           (py_range vstop vstep).

(** The 256 bin counts of a sequence of samples: bin [v] counts the samples
    equal to [v]; samples outside [0, 256) fall in no bin. *)
Definition bin_counts (samples : list Z) : list Z :=
  map (fun level => Z.of_nat (count_occ Z.eq_dec samples (Z.of_nat level)))
      (seq 0 256).

Definition samples (image : gray_image) : list Z :=
  concat (rows (pixels image)).

(** [num_repetitions[vertical_offset : vertical_offset + window_height,
    horizontal_offset : horizontal_offset + window_length] += 1], in the
    element type of [num_repetitions]. *)
Definition count_window (window_height window_length : Z)
  (num_repetitions : gray_image) (offset : Z * Z) : gray_image :=
  let '(vertical_offset, horizontal_offset) := offset in
  Image (dtype_of num_repetitions)
        (update_slice (fun _ _ n => cast (dtype_of num_repetitions) (n + 1))
                      (Z.to_nat vertical_offset)
                      (Z.to_nat (vertical_offset + window_height))
                      (Z.to_nat horizontal_offset)
                      (Z.to_nat (horizontal_offset + window_length))
                      (pixels num_repetitions)).

Section Otsu.

(** Whether [cv2.calcHist] rejects a region without samples ([true]) or
    returns the all-zero histogram for it ([false]). *)
Variable empty_region_rejected : bool.

(** [cv2.calcHist(images=[image], channels=[0], mask=None, histSize=[256],
    ranges=[0, 256])]: bin [v] counts the samples equal to [v]. *)
Definition calcHist (image : gray_image) : result (list Z) :=
  if (num_samples image =? 0)%nat && empty_region_rejected
  then Raise InvalidInput
  else Ok (bin_counts (samples image)).

Definition threshold (image : gray_image) : result gray_image :=
  histogram <- calcHist image ;;
  let num_pixels := Z.of_nat (num_samples image) in
  let best_threshold :=
    (* without samples every probability is 0/0 = nan: no candidate is
       skipped, every variance is nan, and [nan < min] never holds *)
    if num_pixels =? 0 then -1
    else
      scan_best_threshold (probabilities histogram num_pixels) in
  Ok (full_like image best_threshold).

Definition segment_height (image_height num_vertical_segments : Z) : Z :=
  image_height / num_vertical_segments + 1.

Definition segment_length (image_length num_horizontal_segments : Z) : Z :=
  image_length / num_horizontal_segments + 1.

(** The [(vertical_offset, horizontal_offset)] pairs of the two nested
    loops of [segmented_threshold], in the order they are visited. *)
Definition segment_offsets (image_height image_length
                            num_vertical_segments num_horizontal_segments : Z)
  : list (Z * Z) :=
  grid_offsets image_height
               (segment_height image_height num_vertical_segments)
               image_length
               (segment_length image_length num_horizontal_segments).

Definition segmented_threshold (image : gray_image)
  (num_vertical_segments num_horizontal_segments : Z) : result gray_image :=
  if num_vertical_segments <? 1 then Raise ValueError
  else if num_horizontal_segments <? 1 then Raise ValueError
  else
    let image_height := Z.of_nat (height image) in
    let image_length := Z.of_nat (length_of image) in
    let segment_height := segment_height image_height num_vertical_segments in
    let segment_length := segment_length image_length num_horizontal_segments in
    let threshold_mask := zeros_like image in
    for_each
      (fun threshold_mask '(vertical_offset, horizontal_offset) =>
         let r0 := Z.to_nat vertical_offset in
         let r1 := Z.to_nat (vertical_offset + segment_height) in
         let c0 := Z.to_nat horizontal_offset in
         let c1 := Z.to_nat (horizontal_offset + segment_length) in
         let image_segment := image_slice r0 r1 c0 c1 image in
         segmented_threshold_mask <- threshold image_segment ;;
         Ok (Image (dtype_of threshold_mask)
                   (update_slice
                      (fun i j _ => cell 0 (pixels segmented_threshold_mask) i j)
                      r0 r1 c0 c1 (pixels threshold_mask))))
      (segment_offsets image_height image_length
                       num_vertical_segments num_horizontal_segments)
      threshold_mask.

(** The window offsets of the two nested loops of
    [sliding_window_threshold], in the order they are visited. *)
Definition window_offsets (image_height image_length
                           window_height window_length
                           vertical_stride horizontal_stride : Z)
  : list (Z * Z) :=
  grid_offsets (image_height - window_height + vertical_stride) vertical_stride
               (image_length - window_length + horizontal_stride) horizontal_stride.

(** One iteration of the inner loop on the accumulator pair
    [(threshold_mask, num_repetitions)]. *)
Definition window_step (image : gray_image) (window_height window_length : Z)
  (acc : ndarray float * gray_image) (offset : Z * Z)
  : result (ndarray float * gray_image) :=
  let '(threshold_mask, num_repetitions) := acc in
  let '(vertical_offset, horizontal_offset) := offset in
  let r0 := Z.to_nat vertical_offset in
  let r1 := Z.to_nat (vertical_offset + window_height) in
  let c0 := Z.to_nat horizontal_offset in
  let c1 := Z.to_nat (horizontal_offset + window_length) in
  let window := image_slice r0 r1 c0 c1 image in
  window_threshold_mask <- threshold window ;;
  let m := mean window_threshold_mask in
  Ok (update_slice (fun _ _ x => float_add x m) r0 r1 c0 c1 threshold_mask,
      count_window window_height window_length num_repetitions offset).

(** The accumulator pair when the loops end. *)
Definition sliding_window_accumulate (image : gray_image)
  (window_height window_length vertical_stride horizontal_stride : Z)
  : result (ndarray float * gray_image) :=
  for_each (window_step image window_height window_length)
           (window_offsets (Z.of_nat (height image)) (Z.of_nat (length_of image))
                           window_height window_length
                           vertical_stride horizontal_stride)
           (zeros_like_float image, zeros_like image).

Definition sliding_window_threshold (image : gray_image)
  (window_height window_length vertical_stride horizontal_stride : Z)
  : result (ndarray float) :=
  if window_height <? 1 then Raise ValueError
  else if window_length <? 1 then Raise ValueError
  else if vertical_stride <? 1 then Raise ValueError
  else if horizontal_stride <? 1 then Raise ValueError
  else
    acc <- sliding_window_accumulate image window_height window_length
                                     vertical_stride horizontal_stride ;;
    let '(threshold_mask, num_repetitions) := acc in
    Ok (array_map2 float_div_count threshold_mask (pixels num_repetitions)).

End Otsu.


(** ** Specification-level notions *)

(** [t] is the first candidate, among the [n] first ones, whose variance is
    minimal over the candidates that are not skipped. *)
Definition first_argmin (J : nat -> option Qc) (n t : nat) : Prop :=
  (t < n)%nat /\
  exists v, J t = Some v /\
            (forall u w, (u < n)%nat -> J u = Some w -> (v <= w)%Qc) /\
            (forall u w, (u < t)%nat -> J u = Some w -> (v < w)%Qc).




(** What the loop state of the scan is after the candidates [0 .. n-1]. *)
Inductive scan_inv (J : nat -> option Qc) (n : nat) : scan_state -> Prop :=
| scan_inv_none :
    (forall u, (u < n)%nat -> J u = None) ->
    scan_inv J n (-1, PInf)
| scan_inv_some (t : nat) (v : Qc) :
    (t < n)%nat ->
    J t = Some v ->
    (forall u w, (u < n)%nat -> J u = Some w -> (v <= w)%Qc) ->
    (forall u w, (u < t)%nat -> J u = Some w -> (v < w)%Qc) ->
    scan_inv J n (Z.of_nat t, Fin v).

(** Whether pixel [(i, j)] lies in the slice
    [offset_v : offset_v + extent_v, offset_h : offset_h + extent_h]. *)
Definition covers (extent_v extent_h : Z) (i j : Z) (offset : Z * Z) : bool :=
  (fst offset <=? i) && (i <? fst offset + extent_v)
  && (snd offset <=? j) && (j <? snd offset + extent_h).

(** The lengths of the rows, that is, the shape as it is stored. *)
Definition row_lengths {A} (a : ndarray A) : list nat := map (@length A) (rows a).

(** A mask of [threshold] with each cell converted to floating point. *)
Definition as_float_mask (mask : gray_image) : ndarray float :=
  array_map (fun z => Fin (Z2Qc z)) (pixels mask).

(** The ceiling of [a / b], for [b > 0]. *)
Definition ceil_div (a b : Z) : Z := (a + b - 1) / b.

(** ** Notions for the properties of the loops *)

(** The level that the scan of [threshold] selects on a region. *)
Definition selected_level (region : gray_image) : Z :=
  scan_best_threshold
    (probabilities (bin_counts (samples region))
                   (Z.of_nat (num_samples region))).

(** That level as a cell of the mask of the region holds it. *)
Definition region_level (region : gray_image) : Z :=
  cast (dtype_of region) (selected_level region).

(** The slice that the iteration at [offset] takes, for slices of nominal
    extent [extent_v] by [extent_h]. *)
Definition region_at (image : gray_image) (extent_v extent_h : Z)
  (offset : Z * Z) : gray_image :=
  image_slice (Z.to_nat (fst offset)) (Z.to_nat (fst offset + extent_v))
              (Z.to_nat (snd offset)) (Z.to_nat (snd offset + extent_h)) image.

(** The body of the loops of [segmented_threshold]. *)
Definition segment_step (empty_region_rejected : bool) (image : gray_image)
  (segment_height segment_length : Z)
  (threshold_mask : gray_image) (offset : Z * Z) : result gray_image :=
  let '(vertical_offset, horizontal_offset) := offset in
  let r0 := Z.to_nat vertical_offset in
  let r1 := Z.to_nat (vertical_offset + segment_height) in
  let c0 := Z.to_nat horizontal_offset in
  let c1 := Z.to_nat (horizontal_offset + segment_length) in
  let image_segment := image_slice r0 r1 c0 c1 image in
  segmented_threshold_mask <- threshold empty_region_rejected image_segment ;;
  Ok (Image (dtype_of threshold_mask)
            (update_slice
               (fun i j _ => cell 0 (pixels segmented_threshold_mask) i j)
               r0 r1 c0 c1 (pixels threshold_mask))).

(** [threshold_mask[r0:r1, c0:c1] = mask] *)
Definition write_block (threshold_mask mask : gray_image) (r0 r1 c0 c1 : nat)
  : gray_image :=
  Image (dtype_of threshold_mask)
        (update_slice (fun i j _ => cell 0 (pixels mask) i j)
                      r0 r1 c0 c1 (pixels threshold_mask)).

(** [threshold_mask[r0:r1, c0:c1] += value] *)
Definition add_to_block (threshold_mask : ndarray float) (value : float)
  (r0 r1 c0 c1 : nat) : ndarray float :=
  update_slice (fun _ _ x => float_add x value) r0 r1 c0 c1 threshold_mask.


(** The offset of the slice of a grid of step [s] that contains index [i]. *)
Definition aligned (s i : Z) : Z := s * (i / s).

(** Whether a float is a finite number. *)
Definition is_finite (x : float) : Prop :=
  match x with Fin _ => True | _ => False end.

(** ** Images used as concrete inputs *)

Definition uniform_2x2 : gray_image := Image uint8 (Array 2 [[7; 7]; [7; 7]]).

Definition black_2x1 : gray_image := Image uint8 (Array 1 [[0]; [0]]).

Definition two_valued_2x2 : gray_image :=
  Image uint8 (Array 2 [[10; 200]; [200; 10]]).

Definition empty_image : gray_image := Image uint8 (Array 0 []).

Definition column_5x1 : gray_image :=
  Image uint8 (Array 1 [[10]; [200]; [10]; [200]; [10]]).

Definition sample_3x4 : gray_image :=
  Image uint8 (Array 4 [[10; 200; 30; 7]; [10; 200; 31; 7]; [10; 200; 32; 8]]).

(** [sample_3x4] turned by half a turn *)
Definition sample_3x4_rotated : gray_image :=
  Image uint8 (Array 4 [[8; 32; 200; 10]; [7; 31; 200; 10]; [7; 30; 200; 10]]).

Definition black_31x31 : gray_image :=
  Image uint8 (Array 31 (repeat (repeat 0 31%nat) 31%nat)).

(** ** Tactics *)

(** The argument checks at the head of a function, when the arguments are
    valid. *)
Ltac pass_guards :=
  repeat match goal with
         | |- context [Z.ltb ?x 1] =>
             destruct (Z.ltb_spec x 1) as [?|_]; [lia|]
         end.

(** ** Sums *)

Lemma fold_left_Qcplus_acc (l : list Qc) (a : Qc) :
  fold_left Qcplus l a = (a + fold_left Qcplus l 0)%Qc.
Proof.
  revert a; induction l as [|x l IH]; intros a; simpl.
  - ring.
  - rewrite (IH (a + x)%Qc), (IH (0 + x)%Qc). ring.
Qed.

Lemma sum_nil : sum [] = 0%Qc.
Proof. reflexivity. Qed.

Lemma sum_cons (x : Qc) (l : list Qc) : sum (x :: l) = (x + sum l)%Qc.
Proof.
  unfold sum; simpl. rewrite fold_left_Qcplus_acc. ring.
Qed.

Lemma sum_fold_right (l : list Qc) : sum l = fold_right Qcplus 0%Qc l.
Proof.
  induction l as [|x l IH]; [reflexivity|].
  rewrite sum_cons, IH. reflexivity.
Qed.


Lemma sum_zeros (l : list Qc) : Forall (fun p => p = 0%Qc) l -> sum l = 0%Qc.
Proof.
  induction 1 as [|x l Hx _ IH]; [reflexivity|].
  rewrite sum_cons, Hx, IH. ring.
Qed.

Lemma Qcplus_nonneg (a b : Qc) : (0 <= a)%Qc -> (0 <= b)%Qc -> (0 <= a + b)%Qc.
Proof.
  intros Ha Hb. replace 0%Qc with (0 + 0)%Qc by ring.
  apply Qcplus_le_compat; assumption.
Qed.

Lemma sum_nonneg (l : list Qc) :
  Forall (fun p => (0 <= p)%Qc) l -> (0 <= sum l)%Qc.
Proof.
  induction 1 as [|x l Hx _ IH].
  - rewrite sum_nil. apply Qcle_refl.
  - rewrite sum_cons. apply Qcplus_nonneg; assumption.
Qed.








(** ** The scan keeps the first minimum *)

Lemma Qc_ltb_lt (a b : Qc) : Qc_ltb a b = true <-> (a < b)%Qc.
Proof.
  unfold Qc_ltb. rewrite Qclt_alt.
  destruct (a ?= b)%Qc; split; congruence.
Qed.

Lemma Qc_ltb_ge (a b : Qc) : Qc_ltb a b = false <-> (b <= a)%Qc.
Proof.
  split; intros H.
  - apply Qcnot_lt_le. intros Hlt. apply Qc_ltb_lt in Hlt. congruence.
  - destruct (Qc_ltb a b) eqn:E; [|reflexivity].
    apply Qc_ltb_lt in E. exfalso. exact (Qcle_not_lt _ _ H E).
Qed.

Lemma Qc_eq_bool_iff (a b : Qc) : Qc_eq_bool a b = true <-> a = b.
Proof.
  unfold Qc_eq_bool. destruct (Qc_eq_dec a b); split; congruence.
Qed.


Section ScanInvariant.

Variable J : nat -> option Qc.

Lemma scan_S (n : nat) : scan J (S n) = scan_step J (scan J n) n.
Proof.
  unfold scan. rewrite seq_S, fold_left_app. reflexivity.
Qed.

Lemma scan_step_inv (n : nat) (st : scan_state) :
  scan_inv J n st -> scan_inv J (S n) (scan_step J st n).
Proof.
  intros Hinv. unfold scan_step.
  destruct (J n) as [w|] eqn:Hn.
  - destruct Hinv as [Hnone | t v Ht HJt Hmin Hfirst]; simpl.
    + apply scan_inv_some; [lia | exact Hn | |].
      * intros u w' Hu Hw'. assert (u = n \/ u < n)%nat as [->|Hlt] by lia.
        -- rewrite Hn in Hw'. injection Hw' as <-. apply Qcle_refl.
        -- rewrite (Hnone u Hlt) in Hw'. discriminate.
      * intros u w' Hu Hw'. rewrite (Hnone u Hu) in Hw'. discriminate.
    + destruct (Qc_ltb w v) eqn:Hlt.
      * apply Qc_ltb_lt in Hlt.
        apply scan_inv_some; [lia | exact Hn | |].
        -- intros u w' Hu Hw'. assert (u = n \/ u < n)%nat as [->|Hu'] by lia.
           ++ rewrite Hn in Hw'. injection Hw' as <-. apply Qcle_refl.
           ++ apply Qcle_trans with v; [apply Qclt_le_weak; exact Hlt|].
              exact (Hmin u w' Hu' Hw').
        -- intros u w' Hu Hw'.
           apply Qclt_le_trans with v; [exact Hlt|]. exact (Hmin u w' Hu Hw').
      * apply Qc_ltb_ge in Hlt.
        apply scan_inv_some; [lia | exact HJt | | exact Hfirst].
        intros u w' Hu Hw'. assert (u = n \/ u < n)%nat as [->|Hu'] by lia.
        -- rewrite Hn in Hw'. injection Hw' as <-. exact Hlt.
        -- exact (Hmin u w' Hu' Hw').
  - destruct Hinv as [Hnone | t v Ht HJt Hmin Hfirst].
    + apply scan_inv_none. intros u Hu.
      assert (u = n \/ u < n)%nat as [->|Hlt] by lia; auto.
    + apply scan_inv_some; [lia | exact HJt | | exact Hfirst].
      intros u w' Hu Hw'. assert (u = n \/ u < n)%nat as [->|Hu'] by lia.
      * congruence.
      * exact (Hmin u w' Hu' Hw').
Qed.

Lemma scan_invariant (n : nat) : scan_inv J n (scan J n).
Proof.
  induction n as [|n IH].
  - apply scan_inv_none. intros u Hu. lia.
  - rewrite scan_S. apply scan_step_inv, IH.
Qed.

(** Every candidate skipped: the sentinel stays. *)
Lemma scan_all_skipped (n : nat) :
  (forall u, (u < n)%nat -> J u = None) -> scan J n = scan_init.
Proof.
  intros H. destruct (scan_invariant n) as [_ | t v Ht HJt _ _].
  - reflexivity.
  - rewrite (H t Ht) in HJt. discriminate.
Qed.

(** Some candidate kept: the first minimum is selected. *)
Lemma scan_first_argmin (n : nat) :
  (exists u, (u < n)%nat /\ J u <> None) ->
  exists t, fst (scan J n) = Z.of_nat t /\ first_argmin J n t.
Proof.
  intros (u & Hu & HJu). destruct (scan_invariant n) as [Hnone | t v Ht HJt Hmin Hfirst].
  - elim HJu. exact (Hnone u Hu).
  - exists t. split; [reflexivity|]. split; [exact Ht|].
    exists v. auto.
Qed.


End ScanInvariant.

(** ** The variance of the source is the variance of the specification *)


Lemma Z2Qc_mult (x y : Z) : Z2Qc (x * y) = (Z2Qc x * Z2Qc y)%Qc.
Proof.
  unfold Z2Qc, Qcmult. apply Q2Qc_eq_iff.
  unfold Q2Qc; cbn [this]. rewrite !Qred_correct, inject_Z_mult. reflexivity.
Qed.

Lemma Z2Qc_0 : Z2Qc 0 = 0%Qc.
Proof. apply Qc_is_canon. reflexivity. Qed.

Lemma Z2Qc_inj (x y : Z) : Z2Qc x = Z2Qc y -> x = y.
Proof.
  unfold Z2Qc. intros H. apply Q2Qc_eq_iff in H.
  apply inject_Z_injective. exact H.
Qed.

Lemma Z2Qc_nonzero (x : Z) : x <> 0 -> Z2Qc x <> 0%Qc.
Proof.
  intros Hx H. apply Hx. apply Z2Qc_inj. rewrite H, Z2Qc_0. reflexivity.
Qed.

Lemma Z2Qc_le (x y : Z) : x <= y -> (Z2Qc x <= Z2Qc y)%Qc.
Proof.
  intros H. unfold Qcle, Z2Qc.
  change (Qred (inject_Z x) <= Qred (inject_Z y))%Q.
  rewrite !Qred_correct, <- Zle_Qle. exact H.
Qed.

Lemma Z2Qc_lt (x y : Z) : x < y -> (Z2Qc x < Z2Qc y)%Qc.
Proof.
  intros H. unfold Qclt, Z2Qc.
  change (Qred (inject_Z x) < Qred (inject_Z y))%Q.
  rewrite !Qred_correct, <- Zlt_Qlt. exact H.
Qed.









Lemma sumZ_cons (x : Z) (l : list Z) : sumZ (x :: l) = x + sumZ l.
Proof.
  unfold sumZ. simpl. generalize x. clear x.
  assert (G : forall a, fold_left Z.add l a = a + fold_left Z.add l 0).
  { induction l as [|y l IH]; intros a; simpl; [lia|].
    rewrite (IH (a + y)), (IH y). lia. }
  intros x. apply G.
Qed.




(** A candidate is skipped exactly when one of the two classes is empty. *)
Lemma intraclass_variance_skipped (probs : list Qc) (t : nat) :
  intraclass_variance probs t = None <->
  sum (firstn (t + 1) probs) = 0%Qc \/ sum (skipn (t + 1) probs) = 0%Qc.
Proof.
  unfold intraclass_variance. cbv zeta.
  rewrite <- !Qc_eq_bool_iff, <- orb_true_iff.
  destruct (Qc_eq_bool _ _ || Qc_eq_bool _ _); split; congruence.
Qed.

Lemma probabilities_length (histogram : list Z) (num_pixels : Z) :
  length (probabilities histogram num_pixels) = length histogram.
Proof. apply length_map. Qed.


(** The shared core of the statements on the selected threshold. *)
Lemma scan_best_threshold_first_argmin (histogram : list Z) (num_pixels : Z) :
  length histogram = 256%nat ->
  (exists u, (u < 256)%nat /\
             intraclass_variance (probabilities histogram num_pixels) u <> None) ->
  exists t,
    scan_best_threshold (probabilities histogram num_pixels) = Z.of_nat t /\
    first_argmin (intraclass_variance (probabilities histogram num_pixels)) 256 t.
Proof.
  intros Hlen Hex. unfold scan_best_threshold.
  rewrite probabilities_length, Hlen.
  apply scan_first_argmin. exact Hex.
Qed.


(** ** Histograms and their probabilities *)

Lemma Qc_zero_div (x : Qc) : (0 / x)%Qc = 0%Qc.
Proof. unfold Qcdiv. ring. Qed.

Lemma bin_counts_length (s : list Z) : length (bin_counts s) = 256%nat.
Proof. unfold bin_counts. rewrite length_map, length_seq. reflexivity. Qed.

Lemma probabilities_bin_counts_nth (s : list Z) (N : Z) (i : nat) (p : Qc) :
  nth_error (probabilities (bin_counts s) N) i = Some p ->
  (i < 256)%nat /\
  p = (Z2Qc (Z.of_nat (count_occ Z.eq_dec s (Z.of_nat i))) / Z2Qc N)%Qc.
Proof.
  unfold probabilities, bin_counts.
  rewrite !nth_error_map, nth_error_seq.
  destruct (Nat.ltb_spec i 256) as [Hi|Hi]; simpl; [|discriminate].
  intros [= <-]. split; [exact Hi | reflexivity].
Qed.

Lemma probabilities_bin_counts_at (s : list Z) (N : Z) (i : nat) :
  (i < 256)%nat ->
  nth_error (probabilities (bin_counts s) N) i
  = Some (Z2Qc (Z.of_nat (count_occ Z.eq_dec s (Z.of_nat i))) / Z2Qc N)%Qc.
Proof.
  intros Hi. unfold probabilities, bin_counts.
  rewrite !nth_error_map, nth_error_seq.
  apply Nat.ltb_lt in Hi. rewrite Hi. reflexivity.
Qed.

Lemma nth_error_firstn_Some {A} (n i : nat) (l : list A) (x : A) :
  nth_error (firstn n l) i = Some x -> (i < n)%nat /\ nth_error l i = Some x.
Proof.
  rewrite nth_error_firstn.
  destruct (Nat.ltb_spec i n); [auto | discriminate].
Qed.

Lemma Forall_nth_error {A} (P : A -> Prop) (l : list A) :
  (forall i x, nth_error l i = Some x -> P x) -> Forall P l.
Proof.
  intros H. apply Forall_forall. intros x Hx.
  destruct (In_nth_error _ _ Hx) as [i Hi]. exact (H i x Hi).
Qed.

(** With at most one occupied level, each split leaves one class empty. *)
Lemma single_level_all_skipped (probs : list Qc) (v t : nat) :
  (forall i p, nth_error probs i = Some p -> i <> v -> p = 0%Qc) ->
  intraclass_variance probs t = None.
Proof.
  intros H. apply intraclass_variance_skipped.
  destruct (Nat.lt_ge_cases t v) as [Hlt|Hge].
  - left. apply sum_zeros, Forall_nth_error. intros i x Hi.
    apply nth_error_firstn_Some in Hi as [Hi Hx].
    apply (H i x Hx). lia.
  - right. apply sum_zeros, Forall_nth_error. intros i x Hi.
    rewrite nth_error_skipn in Hi. apply (H _ x Hi). lia.
Qed.

Lemma uniform_probabilities (s : list Z) (N x : Z) (i : nat) (p : Qc) :
  (forall y, In y s -> y = x) ->
  nth_error (probabilities (bin_counts s) N) i = Some p ->
  i <> Z.to_nat x -> p = 0%Qc.
Proof.
  intros Hs Hi Hne. apply probabilities_bin_counts_nth in Hi as [_ ->].
  assert (Hc : count_occ Z.eq_dec s (Z.of_nat i) = 0%nat).
  { apply count_occ_not_In. intros Hin. apply Hs in Hin. lia. }
  rewrite Hc. change (Z.of_nat 0) with 0. rewrite Z2Qc_0. apply Qc_zero_div.
Qed.

Lemma uniform_all_skipped (s : list Z) (N x : Z) (t : nat) :
  (forall y, In y s -> y = x) ->
  intraclass_variance (probabilities (bin_counts s) N) t = None.
Proof.
  intros Hs. apply (single_level_all_skipped _ (Z.to_nat x)).
  intros i p. apply uniform_probabilities. exact Hs.
Qed.

Lemma all_skipped_sentinel (probs : list Qc) :
  (forall t, (t < length probs)%nat -> intraclass_variance probs t = None) ->
  scan_best_threshold probs = -1.
Proof.
  intros H. unfold scan_best_threshold. rewrite scan_all_skipped by exact H.
  reflexivity.
Qed.

(** ** Masks *)

Lemma full_like_cell (im : gray_image) (z d : Z) (i j : nat) :
  (i < height im)%nat -> (j < length_of im)%nat ->
  cell d (pixels (full_like im z)) i j = cast (dtype_of im) z.
Proof.
  intros Hi Hj. unfold cell, full_like; simpl.
  rewrite nth_repeat_lt by exact Hi. apply nth_repeat_lt. exact Hj.
Qed.

Lemma full_like_cast (im : gray_image) (z z' : Z) :
  cast (dtype_of im) z = cast (dtype_of im) z' -> full_like im z = full_like im z'.
Proof. intros H. unfold full_like. rewrite H. reflexivity. Qed.

Section ThresholdFacts.

Variable empty_region_rejected : bool.

(** On an image with samples, [threshold] fills the mask with the
    threshold that the scan selects. *)
Lemma threshold_nonempty (image : gray_image) :
  (0 < num_samples image)%nat ->
  threshold empty_region_rejected image
  = Ok (full_like image
          (scan_best_threshold
             (probabilities (bin_counts (samples image))
                            (Z.of_nat (num_samples image))))).
Proof.
  intros Hpos. unfold threshold, calcHist.
  destruct (Nat.eqb_spec (num_samples image) 0) as [E|_]; [lia|].
  cbn [andb bind].
  destruct (Z.eqb_spec (Z.of_nat (num_samples image)) 0) as [E|_]; [lia|].
  reflexivity.
Qed.

Lemma threshold_all_skipped (image : gray_image) :
  (0 < num_samples image)%nat ->
  (forall t, (t < 256)%nat ->
             intraclass_variance
               (probabilities (bin_counts (samples image))
                              (Z.of_nat (num_samples image))) t = None) ->
  threshold empty_region_rejected image = Ok (full_like image (-1)).
Proof.
  intros Hpos Hskip. rewrite threshold_nonempty by exact Hpos.
  rewrite all_skipped_sentinel; [reflexivity|].
  intros t Ht. apply Hskip.
  rewrite probabilities_length, bin_counts_length in Ht. exact Ht.
Qed.

End ThresholdFacts.

(** ** The variance is never negative, and vanishes on two levels *)


Lemma Qcmult_nonneg (a b : Qc) : (0 <= a)%Qc -> (0 <= b)%Qc -> (0 <= a * b)%Qc.
Proof.
  intros Ha Hb. replace 0%Qc with (0 * b)%Qc by ring.
  apply Qcmult_le_compat_r; assumption.
Qed.

Lemma Qcinv_nonneg (a : Qc) : (0 <= a)%Qc -> (0 <= / a)%Qc.
Proof.
  unfold Qcle. intros H.
  change (0 <= Qred (/ a))%Q. rewrite Qred_correct.
  apply Qinv_le_0_compat. exact H.
Qed.

Lemma Qcdiv_nonneg (a b : Qc) : (0 <= a)%Qc -> (0 <= b)%Qc -> (0 <= a / b)%Qc.
Proof.
  intros Ha Hb. unfold Qcdiv. apply Qcmult_nonneg; [exact Ha|].
  apply Qcinv_nonneg, Hb.
Qed.

Lemma Forall_firstn {A} (P : A -> Prop) (n : nat) (l : list A) :
  Forall P l -> Forall P (firstn n l).
Proof.
  intros H. apply Forall_nth_error. intros i x Hi.
  apply nth_error_firstn_Some in Hi as [_ Hi].
  rewrite Forall_forall in H. apply H. exact (nth_error_In _ _ Hi).
Qed.

Lemma Forall_skipn {A} (P : A -> Prop) (n : nat) (l : list A) :
  Forall P l -> Forall P (skipn n l).
Proof.
  intros H. apply Forall_nth_error. intros i x Hi.
  rewrite nth_error_skipn in Hi.
  rewrite Forall_forall in H. apply H. exact (nth_error_In _ _ Hi).
Qed.



Lemma Z2Qc_nonneg (z : Z) : 0 <= z -> (0 <= Z2Qc z)%Qc.
Proof. intros H. rewrite <- Z2Qc_0. apply Z2Qc_le, H. Qed.

Lemma probabilities_nonneg (s : list Z) (N : Z) :
  0 <= N -> Forall (fun p => (0 <= p)%Qc) (probabilities (bin_counts s) N).
Proof.
  intros HN. apply Forall_nth_error. intros i p Hi.
  apply probabilities_bin_counts_nth in Hi as [_ ->].
  apply Qcdiv_nonneg; apply Z2Qc_nonneg; lia.
Qed.



Lemma Qcdiv_nonzero (a b : Qc) : a <> 0%Qc -> b <> 0%Qc -> (a / b)%Qc <> 0%Qc.
Proof.
  intros Ha Hb H. unfold Qcdiv in H.
  apply Qcmult_integral in H as [H|H]; [contradiction|].
  apply Q_apart_0_1. rewrite <- (Qcmult_inv_r b Hb), H. ring.
Qed.

Lemma occupied_probability (s : list Z) (N x : Z) :
  0 < N -> In x s ->
  (Z2Qc (Z.of_nat (count_occ Z.eq_dec s x)) / Z2Qc N)%Qc <> 0%Qc.
Proof.
  intros HN Hin. apply Qcdiv_nonzero; apply Z2Qc_nonzero; [|lia].
  apply (count_occ_In Z.eq_dec) in Hin. lia.
Qed.


(** ** [range] and the grids of offsets *)

Lemma py_range_bound (stop step : Z) (k : nat) :
  0 < step ->
  (k < Z.to_nat ((stop + step - 1) / step))%nat <-> Z.of_nat k * step < stop.
Proof.
  intros Hstep.
  pose proof (Z.div_mod (stop + step - 1) step ltac:(lia)) as Hdm.
  pose proof (Z.mod_pos_bound (stop + step - 1) step Hstep) as Hmod.
  set (q := (stop + step - 1) / step) in *.
  split; intros H.
  - assert (Z.of_nat k < q) by lia. nia.
  - assert (Z.of_nat k < q) by nia. lia.
Qed.

Lemma in_py_range (stop step o : Z) :
  0 < step ->
  In o (py_range stop step) <->
  exists k : nat, o = Z.of_nat k * step /\ o < stop.
Proof.
  intros Hstep. unfold py_range. rewrite in_map_iff. split.
  - intros (k & <- & Hk). apply in_seq in Hk. exists k. split; [reflexivity|].
    apply py_range_bound; [exact Hstep | lia].
  - intros (k & -> & Hk). exists k. split; [reflexivity|].
    apply in_seq. apply py_range_bound in Hk; [lia | exact Hstep].
Qed.

Lemma py_range_nonneg (stop step o : Z) :
  0 < step -> In o (py_range stop step) -> 0 <= o < stop.
Proof.
  intros Hstep Hin. apply in_py_range in Hin as (k & -> & Hk); [|exact Hstep].
  split; [nia | exact Hk].
Qed.


Lemma py_range_empty (stop step : Z) :
  0 < step -> stop <= 0 -> py_range stop step = [].
Proof.
  intros Hstep Hstop. unfold py_range.
  replace (Z.to_nat ((stop + step - 1) / step)) with 0%nat; [reflexivity|].
  assert ((stop + step - 1) / step <= 0); [|lia].
  apply Z.lt_succ_r. apply Z.div_lt_upper_bound; lia.
Qed.

Lemma py_range_single (stop step : Z) :
  0 < stop -> stop <= step -> py_range stop step = [0].
Proof.
  intros Hstop Hstep. unfold py_range.
  replace ((stop + step - 1) / step) with 1; [reflexivity|].
  apply Z.div_unique with (stop - 1); lia.
Qed.

Lemma in_grid_offsets (vstop vstep hstop hstep : Z) (o : Z * Z) :
  In o (grid_offsets vstop vstep hstop hstep) <->
  In (fst o) (py_range vstop vstep) /\ In (snd o) (py_range hstop hstep).
Proof.
  unfold grid_offsets. rewrite in_flat_map. split.
  - intros (v & Hv & Hin). apply in_map_iff in Hin as (h & <- & Hh). auto.
  - intros [Hv Hh]. exists (fst o). split; [exact Hv|].
    apply in_map_iff. exists (snd o). split; [destruct o; reflexivity | exact Hh].
Qed.


Lemma grid_offsets_no_column (vstop vstep hstep hstop : Z) :
  0 < hstep -> hstop <= 0 -> grid_offsets vstop vstep hstop hstep = [].
Proof.
  intros Hh Hs. unfold grid_offsets. rewrite (py_range_empty hstop hstep Hh Hs).
  induction (py_range vstop vstep); [reflexivity | assumption].
Qed.

Lemma grid_offsets_no_row (vstop vstep hstep hstop : Z) :
  0 < vstep -> vstop <= 0 -> grid_offsets vstop vstep hstop hstep = [].
Proof.
  intros Hv Hs. unfold grid_offsets. rewrite (py_range_empty vstop vstep Hv Hs).
  reflexivity.
Qed.

Lemma grid_offsets_single (vstop vstep hstop hstep : Z) :
  0 < vstop <= vstep -> 0 < hstop <= hstep ->
  grid_offsets vstop vstep hstop hstep = [(0, 0)].
Proof.
  intros Hv Hh. unfold grid_offsets.
  rewrite !py_range_single by lia. reflexivity.
Qed.


(** ** Which slices contain a pixel *)

Lemma covers_spec (ev eh i j : Z) (o : Z * Z) :
  covers ev eh i j o = true <->
  (fst o <= i < fst o + ev) /\ (snd o <= j < snd o + eh).
Proof.
  unfold covers. rewrite !andb_true_iff, !Z.leb_le, !Z.ltb_lt. tauto.
Qed.

Lemma aligned_offset_unique (s o i : Z) (k : nat) :
  0 < s -> o = Z.of_nat k * s -> o <= i < o + s -> o = s * (i / s).
Proof.
  intros Hs -> Hi. rewrite (Z.mul_comm (Z.of_nat k) s).
  f_equal. apply Z.div_unique with (i - s * Z.of_nat k); lia.
Qed.

Lemma aligned_offset_in_range (s stop i : Z) :
  0 < s -> 0 <= i < stop -> In (s * (i / s)) (py_range stop s).
Proof.
  intros Hs Hi. apply in_py_range; [exact Hs|].
  pose proof (Z.div_pos i s ltac:(lia) Hs) as Hq.
  pose proof (Z.mul_div_le i s Hs) as Hle.
  exists (Z.to_nat (i / s)). split; [|lia].
  rewrite Z2Nat.id by exact Hq. lia.
Qed.

Lemma aligned_offset_covers (s i : Z) :
  0 < s -> s * (i / s) <= i < s * (i / s) + s.
Proof.
  intros Hs. pose proof (Z.div_mod i s ltac:(lia)) as Hdm.
  pose proof (Z.mod_pos_bound i s Hs). lia.
Qed.


(** Two slices of the grid that share a pixel are the same slice. *)
Lemma grid_slices_disjoint (vstop hstop sv sh i j : Z) (o1 o2 : Z * Z) :
  0 < sv -> 0 < sh ->
  In o1 (grid_offsets vstop sv hstop sh) ->
  In o2 (grid_offsets vstop sv hstop sh) ->
  covers sv sh i j o1 = true -> covers sv sh i j o2 = true -> o1 = o2.
Proof.
  intros Hsv Hsh Hin1 Hin2 Hc1 Hc2.
  apply covers_spec in Hc1 as [Hv1 Hh1]. apply covers_spec in Hc2 as [Hv2 Hh2].
  apply in_grid_offsets in Hin1 as [Hinv1 Hinh1].
  apply in_grid_offsets in Hin2 as [Hinv2 Hinh2].
  apply in_py_range in Hinv1 as (kv1 & Ekv1 & _); [|exact Hsv].
  apply in_py_range in Hinh1 as (kh1 & Ekh1 & _); [|exact Hsh].
  apply in_py_range in Hinv2 as (kv2 & Ekv2 & _); [|exact Hsv].
  apply in_py_range in Hinh2 as (kh2 & Ekh2 & _); [|exact Hsh].
  destruct o1 as [v1 h1], o2 as [v2 h2]. simpl in *.
  rewrite (aligned_offset_unique sv v1 i kv1 Hsv Ekv1 Hv1).
  rewrite (aligned_offset_unique sv v2 i kv2 Hsv Ekv2 Hv2).
  rewrite (aligned_offset_unique sh h1 j kh1 Hsh Ekh1 Hh1).
  rewrite (aligned_offset_unique sh h2 j kh2 Hsh Ekh2 Hh2).
  reflexivity.
Qed.

(** A window that is at least as long as the stride and fits in the image:
    every index is in some window. *)
Lemma window_covers_index (n window stride i : Z) :
  0 < stride -> stride <= window -> window <= n -> 0 <= i < n ->
  exists o, In o (py_range (n - window + stride) stride) /\
            o <= i < o + window /\ 0 <= o < n.
Proof.
  intros Hs Hsw Hwn Hi.
  set (kmax := (n - window + stride - 1) / stride).
  pose proof (Z.div_mod (n - window + stride - 1) stride ltac:(lia)) as Hdm.
  pose proof (Z.mod_pos_bound (n - window + stride - 1) stride Hs) as Hmod.
  fold kmax in Hdm.
  pose proof (Z.div_mod i stride ltac:(lia)) as Hdi.
  pose proof (Z.mod_pos_bound i stride Hs) as Hmi.
  assert (Hk0 : 0 <= kmax) by (apply Z.div_pos; lia).
  assert (Hq0 : 0 <= i / stride) by (apply Z.div_pos; lia).
  destruct (Z_le_gt_dec (i / stride) kmax) as [Hle|Hgt].
  - exists (stride * (i / stride)). split; [|lia].
    apply in_py_range; [exact Hs|].
    exists (Z.to_nat (i / stride)). rewrite Z2Nat.id by exact Hq0. nia.
  - exists (stride * kmax). split; [|nia].
    apply in_py_range; [exact Hs|].
    exists (Z.to_nat kmax). rewrite Z2Nat.id by exact Hk0. nia.
Qed.

Lemma window_covers_pixel (H W wh wl vs hs i j : Z) :
  0 < vs -> vs <= wh -> wh <= H -> 0 < hs -> hs <= wl -> wl <= W ->
  0 <= i < H -> 0 <= j < W ->
  exists o, In o (grid_offsets (H - wh + vs) vs (W - wl + hs) hs) /\
            covers wh wl i j o = true /\
            0 <= fst o < H /\ 0 <= snd o < W.
Proof.
  intros Hvs Hvw HwH Hhs Hhw HwW Hi Hj.
  destruct (window_covers_index H wh vs i Hvs Hvw HwH Hi) as (ov & Hinv & Hcv & Hbv).
  destruct (window_covers_index W wl hs j Hhs Hhw HwW Hj) as (oh & Hinh & Hch & Hbh).
  exists (ov, oh). split; [apply in_grid_offsets; auto|].
  split; [apply covers_spec; auto | auto].
Qed.

(** ** Loops *)

Lemma for_each_invariant {S X} (P : S -> Prop) (body : S -> X -> result S)
  (xs : list X) (s : S) :
  P s ->
  (forall s x, In x xs -> P s -> exists s', body s x = Ok s' /\ P s') ->
  exists s', for_each body xs s = Ok s' /\ P s'.
Proof.
  revert s; induction xs as [|x xs IH]; intros s Hs Hbody; simpl.
  - exists s. auto.
  - destruct (Hbody s x (or_introl eq_refl) Hs) as (s1 & E1 & H1).
    rewrite E1. simpl. apply IH; [exact H1|].
    intros s2 y Hy. apply Hbody. right. exact Hy.
Qed.

Lemma for_each_fold {S X T} (g : S -> T) (h : T -> X -> T)
  (body : S -> X -> result S) (xs : list X) (s s' : S) :
  (forall s x s', body s x = Ok s' -> g s' = h (g s) x) ->
  for_each body xs s = Ok s' ->
  g s' = fold_left h xs (g s).
Proof.
  intros Hbody. revert s; induction xs as [|x xs IH]; intros s; simpl.
  - intros [= ->]. reflexivity.
  - destruct (body s x) as [s1|e] eqn:E1; simpl; [|discriminate].
    intros H. rewrite (IH s1 H), (Hbody s x s1 E1). reflexivity.
Qed.

(** ** Slices and their shapes *)

Lemma slice_length {A} (lo hi : nat) (l : list A) :
  length (slice lo hi l) = (Nat.min hi (length l) - lo)%nat.
Proof. unfold slice. rewrite length_skipn, length_firstn. reflexivity. Qed.

Lemma slice_whole {A} (hi : nat) (l : list A) :
  (length l <= hi)%nat -> slice 0 hi l = l.
Proof. intros H. unfold slice. simpl. apply firstn_all2, H. Qed.

Lemma image_slice_height (r0 r1 c0 c1 : nat) (im : gray_image) :
  height (image_slice r0 r1 c0 c1 im) = (Nat.min r1 (height im) - r0)%nat.
Proof.
  unfold height, nrows, image_slice, slice2; simpl.
  rewrite length_map. apply slice_length.
Qed.

Lemma image_slice_length_of (r0 r1 c0 c1 : nat) (im : gray_image) :
  length_of (image_slice r0 r1 c0 c1 im)
  = (Nat.min c1 (length_of im) - Nat.min c0 (length_of im))%nat.
Proof. reflexivity. Qed.

(** A slice that starts inside the image has samples. *)
Lemma image_slice_nonempty (r0 r1 c0 c1 : nat) (im : gray_image) :
  (r0 < height im)%nat -> (r0 < r1)%nat ->
  (c0 < length_of im)%nat -> (c0 < c1)%nat ->
  (0 < num_samples (image_slice r0 r1 c0 c1 im))%nat.
Proof.
  intros Hr0 Hr Hc0 Hc.
  change (num_samples (image_slice r0 r1 c0 c1 im))
    with (height (image_slice r0 r1 c0 c1 im)
          * length_of (image_slice r0 r1 c0 c1 im))%nat.
  rewrite image_slice_height, image_slice_length_of. nia.
Qed.

Lemma image_slice_whole (r1 c1 : nat) (im : gray_image) :
  rectangular (pixels im) ->
  (height im <= r1)%nat -> (length_of im <= c1)%nat ->
  image_slice 0 r1 0 c1 im = im.
Proof.
  destruct im as [d [w rs]]. unfold rectangular, height, length_of, nrows; simpl.
  intros Hrect Hr Hc. unfold image_slice, slice2; cbn [dtype_of pixels ncols rows].
  f_equal. f_equal; [lia|].
  rewrite slice_whole by exact Hr. clear Hr.
  induction Hrect as [|r rs' Hlen _ IH]; [reflexivity|].
  cbn [map]. f_equal; [|exact IH].
  apply slice_whole. lia.
Qed.

Lemma imap_from_length {A B} (f : nat -> A -> B) (l : list A) (s : nat) :
  length (imap_from s f l) = length l.
Proof.
  revert s; induction l as [|x l IH]; intros s; simpl; [reflexivity|].
  rewrite IH. reflexivity.
Qed.

Lemma imap_from_nth_error {A B} (f : nat -> A -> B) (l : list A) (s i : nat) :
  nth_error (imap_from s f l) i = option_map (f (s + i)%nat) (nth_error l i).
Proof.
  revert s i; induction l as [|x l IH]; intros s i; simpl.
  - destruct i; reflexivity.
  - destruct i as [|i]; simpl.
    + rewrite Nat.add_0_r. reflexivity.
    + rewrite IH. replace (S s + i)%nat with (s + S i)%nat by lia. reflexivity.
Qed.

Lemma imap_from_repeat {A B} (f : nat -> A -> B) (x : A) (v : B) (n s : nat) :
  (forall i, (s <= i < s + n)%nat -> f i x = v) ->
  imap_from s f (repeat x n) = repeat v n.
Proof.
  revert s; induction n as [|n IH]; intros s H; simpl; [reflexivity|].
  rewrite (H s) by lia. f_equal. apply IH. intros i Hi. apply H. lia.
Qed.

(** Updating a slice that spans a whole constant array. *)
Lemma update_slice_whole_repeat {A} (f : nat -> nat -> A -> A) (z v : A)
  (r1 c1 h w : nat) :
  (h <= r1)%nat -> (w <= c1)%nat ->
  (forall i j, (i < h)%nat -> (j < w)%nat -> f i j z = v) ->
  update_slice f 0 r1 0 c1 (Array w (repeat (repeat z w) h))
  = Array w (repeat (repeat v w) h).
Proof.
  intros Hr Hc Hf. unfold update_slice; simpl. f_equal.
  unfold imap. apply imap_from_repeat. intros i Hi.
  unfold in_slice. replace ((0 <=? i)%nat && (i <? r1)%nat) with true.
  2:{ symmetry. apply andb_true_iff. split;
      [apply Nat.leb_le | apply Nat.ltb_lt]; lia. }
  apply imap_from_repeat. intros j Hj.
  replace ((0 <=? j)%nat && (j <? c1)%nat) with true.
  2:{ symmetry. apply andb_true_iff. split;
      [apply Nat.leb_le | apply Nat.ltb_lt]; lia. }
  rewrite !Nat.sub_0_r. apply Hf; lia.
Qed.

Lemma imap_from_row_lengths {A} (g : nat -> list A -> list A) (l : list (list A))
  (s : nat) :
  (forall i r, length (g i r) = length r) ->
  map (@length A) (imap_from s g l) = map (@length A) l.
Proof.
  intros Hg. revert s; induction l as [|r rs IH]; intros s; simpl;
    [reflexivity|].
  rewrite IH, Hg. reflexivity.
Qed.

Lemma update_slice_row_lengths {A} (f : nat -> nat -> A -> A)
  (r0 r1 c0 c1 : nat) (a : ndarray A) :
  row_lengths (update_slice f r0 r1 c0 c1 a) = row_lengths a.
Proof.
  unfold row_lengths, update_slice, imap; simpl.
  apply imap_from_row_lengths. intros i r.
  destruct (in_slice r0 r1 i); [apply imap_from_length | reflexivity].
Qed.

Lemma combine_repeat {A B} (a : A) (b : B) (n : nat) :
  combine (repeat a n) (repeat b n) = repeat (a, b) n.
Proof. induction n as [|n IH]; simpl; [reflexivity | rewrite IH; reflexivity]. Qed.

Lemma concat_repeat_repeat {A} (c : A) (w h : nat) :
  concat (repeat (repeat c w) h) = repeat c (h * w).
Proof.
  induction h as [|h IH]; simpl; [reflexivity|].
  rewrite IH, repeat_app. reflexivity.
Qed.

Lemma sumZ_repeat (c : Z) (n : nat) : sumZ (repeat c n) = c * Z.of_nat n.
Proof.
  induction n as [|n IH]; [unfold sumZ; simpl; lia|].
  cbn [repeat]. rewrite sumZ_cons, IH. lia.
Qed.

Lemma Z2Qc_1 : Z2Qc 1 = 1%Qc.
Proof. apply Qc_is_canon. reflexivity. Qed.

(** The mean of a constant mask is its value. *)
Lemma mean_full_like (im : gray_image) (z : Z) :
  (0 < height im)%nat -> (0 < length_of im)%nat ->
  mean (full_like im z) = Fin (Z2Qc (cast (dtype_of im) z)).
Proof.
  intros Hh Hw. unfold mean, full_like; cbn [pixels rows].
  rewrite concat_repeat_repeat.
  destruct (height im * length_of im)%nat as [|n] eqn:En; [nia|].
  rewrite <- En. clear En n.
  assert (Hn : Z2Qc (Z.of_nat (height im * length_of im)) <> 0%Qc)
    by (apply Z2Qc_nonzero; nia).
  destruct (repeat _ _) as [|x l] eqn:El.
  - apply (f_equal (@length Z)) in El. rewrite repeat_length in El.
    simpl in El. nia.
  - rewrite <- El. rewrite sumZ_repeat, repeat_length, Z2Qc_mult.
    f_equal. field. exact Hn.
Qed.

Lemma cast_1 (d : dtype) : cast d (0 + 1) = 1.
Proof. destruct d; reflexivity. Qed.

Section FunctionFacts.

(** Whether the histogram builder rejects a region without samples. *)
Variable e : bool.

(** Without samples, [threshold] does what the histogram builder does. *)
Lemma threshold_empty (image : gray_image) :
  num_samples image = 0%nat ->
  threshold e image
  = if e then Raise InvalidInput else Ok (full_like image (-1)).
Proof.
  intros H0. unfold threshold, calcHist. rewrite H0. simpl.
  destruct e; reflexivity.
Qed.

(** Every block of [segmented_threshold] starts inside the image. *)
Lemma segment_offsets_inside (H W nv nh : Z) (o : Z * Z) :
  0 <= H -> 0 <= W -> 1 <= nv -> 1 <= nh ->
  In o (segment_offsets H W nv nh) ->
  0 <= fst o < H /\ 0 <= snd o < W.
Proof.
  intros HH HW Hnv Hnh Hin. apply in_grid_offsets in Hin as [Hv Hh].
  pose proof (Z.div_pos H nv HH ltac:(lia)).
  pose proof (Z.div_pos W nh HW ltac:(lia)).
  split; eapply py_range_nonneg; eauto;
    unfold segment_height, segment_length; lia.
Qed.

Lemma segmented_threshold_returns (image : gray_image) (nv nh : Z) :
  1 <= nv -> 1 <= nh -> exists mask, segmented_threshold e image nv nh = Ok mask.
Proof.
  intros Hnv Hnh. unfold segmented_threshold.
  pass_guards.
  destruct (for_each_invariant (fun _ => True)
              (fun threshold_mask '(vertical_offset, horizontal_offset) =>
                 let r0 := Z.to_nat vertical_offset in
                 let r1 := Z.to_nat (vertical_offset
                                     + segment_height (Z.of_nat (height image)) nv) in
                 let c0 := Z.to_nat horizontal_offset in
                 let c1 := Z.to_nat (horizontal_offset
                                     + segment_length (Z.of_nat (length_of image)) nh) in
                 let image_segment := image_slice r0 r1 c0 c1 image in
                 segmented_threshold_mask <- threshold e image_segment ;;
                 Ok (Image (dtype_of threshold_mask)
                           (update_slice
                              (fun i j _ =>
                                 cell 0 (pixels segmented_threshold_mask) i j)
                              r0 r1 c0 c1 (pixels threshold_mask))))
              (segment_offsets (Z.of_nat (height image))
                               (Z.of_nat (length_of image)) nv nh)
              (zeros_like image) I) as (mask & Hmask & _).
  - intros s [vo ho] Hin _.
    apply segment_offsets_inside in Hin as [Hv Hh]; try lia. simpl in Hv, Hh.
    pose proof (Z.div_pos (Z.of_nat (height image)) nv ltac:(lia) ltac:(lia)).
    pose proof (Z.div_pos (Z.of_nat (length_of image)) nh ltac:(lia) ltac:(lia)).
    cbv zeta. rewrite threshold_nonempty.
    + simpl. eexists. split; [reflexivity | exact I].
    + apply image_slice_nonempty; unfold segment_height, segment_length; lia.
  - exists mask. exact Hmask.
Qed.

(** No block is visited in an image without samples. *)
Lemma segmented_threshold_empty (image : gray_image) (nv nh : Z) :
  num_samples image = 0%nat -> 1 <= nv -> 1 <= nh ->
  segmented_threshold e image nv nh = Ok (zeros_like image).
Proof.
  intros H0 Hnv Hnh. unfold segmented_threshold.
  pass_guards.
  pose proof (Z.div_pos (Z.of_nat (height image)) nv ltac:(lia) ltac:(lia)).
  pose proof (Z.div_pos (Z.of_nat (length_of image)) nh ltac:(lia) ltac:(lia)).
  unfold num_samples, size in H0. fold (height image) (length_of image) in H0.
  apply Nat.eq_mul_0 in H0. unfold segment_offsets.
  destruct H0 as [Hh|Hw].
  - rewrite grid_offsets_no_row; [reflexivity | unfold segment_height; lia | lia].
  - rewrite grid_offsets_no_column; [reflexivity | unfold segment_length; lia | lia].
Qed.

(** One segment in each direction: the only block is the whole image. *)
Lemma segmented_threshold_one_block (image : gray_image) :
  rectangular (pixels image) ->
  (0 < height image)%nat -> (0 < length_of image)%nat ->
  segmented_threshold e image 1 1 = threshold e image.
Proof.
  intros Hrect Hh Hw. unfold segmented_threshold. cbn [Z.ltb Z.compare].
  cbv zeta. unfold segment_offsets, segment_height, segment_length.
  rewrite !Z.div_1_r. rewrite grid_offsets_single by lia.
  cbn [for_each]. rewrite image_slice_whole by (try exact Hrect; lia).
  assert (Hpos : (0 < num_samples image)%nat)
    by (unfold num_samples, size; fold (height image) (length_of image); nia).
  rewrite (threshold_nonempty e image Hpos). cbn [bind].
  f_equal. unfold zeros_like; cbn [dtype_of pixels].
  rewrite (update_slice_whole_repeat _ 0
             (cast (dtype_of image)
                   (scan_best_threshold
                      (probabilities (bin_counts (samples image))
                                     (Z.of_nat (num_samples image)))))).
  - reflexivity.
  - lia.
  - lia.
  - intros i j Hi Hj. apply full_like_cell; assumption.
Qed.

End FunctionFacts.

(** ** Cells of an elementwise operation *)

Lemma nth_error_combine_Some {A B} (l1 : list A) (l2 : list B) (i : nat)
  (x : A) (y : B) :
  nth_error l1 i = Some x -> nth_error l2 i = Some y ->
  nth_error (combine l1 l2) i = Some (x, y).
Proof.
  revert l2 i; induction l1 as [|a l1 IH]; intros l2 i H1 H2.
  - destruct i; discriminate.
  - destruct l2 as [|b l2]; [destruct i; discriminate|].
    destruct i as [|i]; simpl in *.
    + congruence.
    + apply IH; assumption.
Qed.

Lemma row_lengths_cell {A} (a : ndarray A) (w h i j : nat) :
  row_lengths a = repeat w h -> (i < h)%nat -> (j < w)%nat ->
  exists r x, nth_error (rows a) i = Some r /\ nth_error r j = Some x.
Proof.
  intros Hshape Hi Hj.
  assert (Hl : nth_error (row_lengths a) i = Some w)
    by (rewrite Hshape; apply nth_error_repeat; exact Hi).
  unfold row_lengths in Hl. rewrite nth_error_map in Hl.
  destruct (nth_error (rows a) i) as [r|] eqn:Er; [|discriminate].
  injection Hl as Hlen.
  destruct (nth_error r j) as [x|] eqn:Ex.
  - exists r, x. auto.
  - apply nth_error_None in Ex. lia.
Qed.

Lemma array_map2_cell {A B C} (f : A -> B -> C) (a : ndarray A) (b : ndarray B)
  (da : A) (db : B) (dc : C) (w h i j : nat) :
  row_lengths a = repeat w h -> row_lengths b = repeat w h ->
  (i < h)%nat -> (j < w)%nat ->
  cell dc (array_map2 f a b) i j = f (cell da a i j) (cell db b i j).
Proof.
  intros Ha Hb Hi Hj.
  destruct (row_lengths_cell a w h i j Ha Hi Hj) as (ra & x & Era & Ex).
  destruct (row_lengths_cell b w h i j Hb Hi Hj) as (rb & y & Erb & Ey).
  unfold cell, array_map2; cbn [rows].
  rewrite (nth_error_nth _ _ [] Era), (nth_error_nth _ _ da Ex).
  rewrite (nth_error_nth _ _ [] Erb), (nth_error_nth _ _ db Ey).
  pose proof (nth_error_combine_Some _ _ _ _ _ Era Erb) as Hrow.
  apply (map_nth_error
           (fun '(ra, rb) => map (fun '(x, y) => f x y) (combine ra rb))) in Hrow.
  rewrite (nth_error_nth _ _ [] Hrow).
  pose proof (nth_error_combine_Some _ _ _ _ _ Ex Ey) as Hcell.
  apply (map_nth_error (fun '(x, y) => f x y)) in Hcell.
  apply (nth_error_nth _ _ dc Hcell).
Qed.

(** A division by a zero count never gives a finite value. *)
Lemma float_div_count_zero (x : float) (q : Qc) : float_div_count x 0 <> Fin q.
Proof.
  unfold float_div_count. cbn [Z.eqb].
  destruct x as [a| | |]; try discriminate.
  destruct (Qc_eq_bool a 0%Qc); [discriminate|].
  destruct (Qc_ltb 0%Qc a); discriminate.
Qed.

Lemma fold_left_keep {T X} (xs : list X) (t : T) :
  fold_left (fun t _ => t) xs t = t.
Proof. induction xs as [|x xs IH]; [reflexivity | exact IH]. Qed.

Section WindowFacts.

(** Whether the histogram builder rejects a region without samples. *)
Variable e : bool.

Lemma window_step_counts (image : gray_image) (wh wl : Z)
  (acc acc' : ndarray float * gray_image) (o : Z * Z) :
  window_step e image wh wl acc o = Ok acc' ->
  snd acc' = count_window wh wl (snd acc) o.
Proof.
  unfold window_step. destruct acc as [tm nr], o as [vo ho].
  destruct (threshold e _) as [m|err]; simpl; [|discriminate].
  intros [= <-]. reflexivity.
Qed.

Lemma window_step_shape (image : gray_image) (wh wl : Z)
  (acc acc' : ndarray float * gray_image) (o : Z * Z) :
  window_step e image wh wl acc o = Ok acc' ->
  row_lengths (fst acc') = row_lengths (fst acc).
Proof.
  unfold window_step. destruct acc as [tm nr], o as [vo ho].
  destruct (threshold e _) as [m|err]; simpl; [|discriminate].
  intros [= <-]. apply update_slice_row_lengths.
Qed.

(** The contribution counts do not depend on the thresholds. *)
Lemma accumulate_counts (image : gray_image) (wh wl vs hs : Z)
  (acc : ndarray float * gray_image) :
  sliding_window_accumulate e image wh wl vs hs = Ok acc ->
  snd acc = fold_left (count_window wh wl)
                      (window_offsets (Z.of_nat (height image))
                                      (Z.of_nat (length_of image)) wh wl vs hs)
                      (zeros_like image).
Proof.
  intros H. unfold sliding_window_accumulate in H.
  apply (for_each_fold snd (count_window wh wl)) in H; [exact H|].
  intros s x s'. apply window_step_counts.
Qed.

Lemma accumulate_shape (image : gray_image) (wh wl vs hs : Z)
  (acc : ndarray float * gray_image) :
  sliding_window_accumulate e image wh wl vs hs = Ok acc ->
  row_lengths (fst acc) = repeat (length_of image) (height image).
Proof.
  intros H. unfold sliding_window_accumulate in H.
  apply (for_each_fold (fun s => row_lengths (fst s)) (fun t _ => t)) in H.
  - rewrite H, fold_left_keep. unfold row_lengths, zeros_like_float; simpl.
    rewrite map_repeat, repeat_length. reflexivity.
  - intros s x s'. apply window_step_shape.
Qed.

(** When every window starts inside the image, no window is empty and the
    loops end normally. *)
Lemma accumulate_returns (image : gray_image) (wh wl vs hs : Z) :
  1 <= wh -> 1 <= wl ->
  (forall o, In o (window_offsets (Z.of_nat (height image))
                                  (Z.of_nat (length_of image)) wh wl vs hs) ->
             0 <= fst o < Z.of_nat (height image) /\
             0 <= snd o < Z.of_nat (length_of image)) ->
  exists acc, sliding_window_accumulate e image wh wl vs hs = Ok acc.
Proof.
  intros Hwh Hwl Hin. unfold sliding_window_accumulate.
  destruct (for_each_invariant (fun _ => True)
              (window_step e image wh wl)
              (window_offsets (Z.of_nat (height image))
                              (Z.of_nat (length_of image)) wh wl vs hs)
              (zeros_like_float image, zeros_like image) I) as (acc & Hacc & _).
  - intros [tm nr] [vo ho] Ho _. apply Hin in Ho as [Hv Hh]. simpl in Hv, Hh.
    unfold window_step. rewrite threshold_nonempty.
    + simpl. eexists. split; [reflexivity | exact I].
    + apply image_slice_nonempty; lia.
  - exists acc. exact Hacc.
Qed.

End WindowFacts.

Section SingleWindow.

(** Whether the histogram builder rejects a region without samples. *)
Variable e : bool.

(** A window as large as the image: one window, whatever the strides. *)
Lemma window_offsets_full (H W vs hs : Z) :
  1 <= vs -> 1 <= hs -> window_offsets H W H W vs hs = [(0, 0)].
Proof.
  intros Hvs Hhs. unfold window_offsets.
  replace (H - H + vs) with vs by lia. replace (W - W + hs) with hs by lia.
  apply grid_offsets_single; lia.
Qed.

Lemma sliding_window_full (image : gray_image) (vs hs : Z) :
  rectangular (pixels image) ->
  (0 < height image)%nat -> (0 < length_of image)%nat ->
  1 <= vs -> 1 <= hs ->
  sliding_window_threshold e image (Z.of_nat (height image))
                           (Z.of_nat (length_of image)) vs hs
  = Ok (as_float_mask
          (full_like image
             (scan_best_threshold
                (probabilities (bin_counts (samples image))
                               (Z.of_nat (num_samples image)))))).
Proof.
  intros Hrect Hh Hw Hvs Hhs. unfold sliding_window_threshold.
  pass_guards.
  unfold sliding_window_accumulate.
  rewrite window_offsets_full by assumption.
  cbn [for_each]. unfold window_step.
  rewrite image_slice_whole by (try exact Hrect; lia).
  assert (Hpos : (0 < num_samples image)%nat)
    by (unfold num_samples, size; fold (height image) (length_of image); nia).
  rewrite (threshold_nonempty e image Hpos). cbn [bind].
  set (t := scan_best_threshold _).
  rewrite (mean_full_like image t Hh Hw).
  unfold count_window, zeros_like_float, zeros_like; cbn [dtype_of pixels].
  rewrite (update_slice_whole_repeat _ (Fin 0%Qc)
             (Fin (Z2Qc (cast (dtype_of image) t)))).
  2,3: lia.
  2:{ intros i j _ _. cbn [float_add]. f_equal. ring. }
  rewrite (update_slice_whole_repeat _ 0 1).
  2,3: lia.
  2:{ intros i j _ _. apply cast_1. }
  f_equal. unfold array_map2, as_float_mask, array_map, full_like;
    cbn [ncols rows pixels].
  f_equal. rewrite combine_repeat, !map_repeat, combine_repeat, map_repeat.
  f_equal. f_equal. unfold float_div_count. cbn [Z.eqb].
  f_equal. rewrite Z2Qc_1. field. apply Q_apart_0_1.
Qed.

(** Without samples and with strides that do not exceed the window, no
    window is visited. *)
Lemma sliding_window_empty (image : gray_image) (wh wl vs hs : Z) :
  num_samples image = 0%nat ->
  1 <= vs -> vs <= wh -> 1 <= hs -> hs <= wl ->
  sliding_window_threshold e image wh wl vs hs
  = Ok (array_map2 float_div_count (zeros_like_float image)
                   (pixels (zeros_like image))).
Proof.
  intros H0 Hvs Hvw Hhs Hhw. unfold sliding_window_threshold.
  pass_guards.
  unfold sliding_window_accumulate, window_offsets.
  unfold num_samples, size in H0. fold (height image) (length_of image) in H0.
  apply Nat.eq_mul_0 in H0. destruct H0 as [Hh|Hw].
  - rewrite grid_offsets_no_row by lia. reflexivity.
  - rewrite grid_offsets_no_column by lia. reflexivity.
Qed.

End SingleWindow.

(** ** The stored count is the number of windows, modulo the element type *)

Lemma update_slice_cell {A} (d : A) (f : nat -> nat -> A -> A)
  (r0 r1 c0 c1 : nat) (a : ndarray A) (i j : nat) (r : list A) (x : A) :
  nth_error (rows a) i = Some r -> nth_error r j = Some x ->
  cell d (update_slice f r0 r1 c0 c1 a) i j
  = if in_slice r0 r1 i && in_slice c0 c1 j
    then f (i - r0)%nat (j - c0)%nat x else x.
Proof.
  intros Hr Hx. unfold cell, update_slice, imap; cbn [rows].
  assert (Hrow : nth_error
                   (imap_from 0
                      (fun i row =>
                         if in_slice r0 r1 i
                         then imap_from 0
                                (fun j x =>
                                   if in_slice c0 c1 j
                                   then f (i - r0)%nat (j - c0)%nat x else x)
                                row
                         else row) (rows a)) i
                 = Some (if in_slice r0 r1 i
                         then imap_from 0
                                (fun j x =>
                                   if in_slice c0 c1 j
                                   then f (i - r0)%nat (j - c0)%nat x else x)
                                r
                         else r)).
  { rewrite imap_from_nth_error, Hr. reflexivity. }
  rewrite (nth_error_nth _ _ [] Hrow).
  destruct (in_slice r0 r1 i); cbn [andb].
  - apply nth_error_nth. rewrite imap_from_nth_error, Hx. reflexivity.
  - apply nth_error_nth. exact Hx.
Qed.

Lemma in_slice_covers (wh wl vo ho : Z) (i j : nat) :
  0 <= vo -> 0 <= ho ->
  in_slice (Z.to_nat vo) (Z.to_nat (vo + wh)) i
  && in_slice (Z.to_nat ho) (Z.to_nat (ho + wl)) j
  = covers wh wl (Z.of_nat i) (Z.of_nat j) (vo, ho).
Proof.
  intros Hvo Hho. apply eq_true_iff_eq.
  rewrite covers_spec. unfold in_slice.
  rewrite !andb_true_iff, !Nat.leb_le, !Nat.ltb_lt. cbn [fst snd]. lia.
Qed.

Lemma cast_cast_succ (d : dtype) (n : Z) : cast d (cast d n + 1) = cast d (n + 1).
Proof. unfold cast. apply Zplus_mod_idemp_l. Qed.

Lemma count_window_row_lengths (wh wl : Z) (nr : gray_image) (o : Z * Z) :
  row_lengths (pixels (count_window wh wl nr o)) = row_lengths (pixels nr).
Proof. destruct o. apply update_slice_row_lengths. Qed.

Lemma count_window_dtype (wh wl : Z) (nr : gray_image) (o : Z * Z) :
  dtype_of (count_window wh wl nr o) = dtype_of nr.
Proof. destruct o. reflexivity. Qed.

Lemma count_window_cell (wh wl : Z) (nr : gray_image) (o : Z * Z)
  (w h i j : nat) :
  row_lengths (pixels nr) = repeat w h -> (i < h)%nat -> (j < w)%nat ->
  0 <= fst o -> 0 <= snd o ->
  cell 0 (pixels (count_window wh wl nr o)) i j
  = if covers wh wl (Z.of_nat i) (Z.of_nat j) o
    then cast (dtype_of nr) (cell 0 (pixels nr) i j + 1)
    else cell 0 (pixels nr) i j.
Proof.
  intros Hshape Hi Hj Hv Hh. destruct o as [vo ho]. cbn [fst snd] in Hv, Hh.
  destruct (row_lengths_cell _ _ _ _ _ Hshape Hi Hj) as (r & x & Hr & Hx).
  unfold count_window; cbn [pixels].
  rewrite (update_slice_cell 0 _ _ _ _ _ _ i j r x Hr Hx).
  rewrite in_slice_covers by assumption.
  unfold cell. rewrite (nth_error_nth _ _ [] Hr), (nth_error_nth _ _ 0 Hx).
  reflexivity.
Qed.

Lemma fold_count_window_cell (wh wl : Z) (offsets : list (Z * Z))
  (nr : gray_image) (w h i j : nat) (n0 : Z) :
  row_lengths (pixels nr) = repeat w h -> (i < h)%nat -> (j < w)%nat ->
  (forall o, In o offsets -> 0 <= fst o /\ 0 <= snd o) ->
  cell 0 (pixels nr) i j = cast (dtype_of nr) n0 ->
  cell 0 (pixels (fold_left (count_window wh wl) offsets nr)) i j
  = cast (dtype_of nr)
         (n0 + Z.of_nat (length (filter (covers wh wl (Z.of_nat i) (Z.of_nat j))
                                        offsets))).
Proof.
  intros Hshape Hi Hj. revert nr n0 Hshape.
  induction offsets as [|o offsets IH]; intros nr n0 Hshape Hpos Hcell.
  - simpl. rewrite Z.add_0_r. exact Hcell.
  - cbn [fold_left filter].
    assert (Ho : 0 <= fst o /\ 0 <= snd o) by (apply Hpos; left; reflexivity).
    pose proof (count_window_cell wh wl nr o w h i j Hshape Hi Hj
                  (proj1 Ho) (proj2 Ho)) as Hstep.
    rewrite Hcell in Hstep.
    destruct (covers wh wl (Z.of_nat i) (Z.of_nat j) o) eqn:Hc.
    + rewrite cast_cast_succ in Hstep.
      rewrite (IH (count_window wh wl nr o) (n0 + 1)).
      * rewrite count_window_dtype. f_equal. cbn [length]. lia.
      * rewrite count_window_row_lengths. exact Hshape.
      * intros o' Ho'. apply Hpos. right. exact Ho'.
      * rewrite count_window_dtype. exact Hstep.
    + rewrite (IH (count_window wh wl nr o) n0).
      * rewrite count_window_dtype. reflexivity.
      * rewrite count_window_row_lengths. exact Hshape.
      * intros o' Ho'. apply Hpos. right. exact Ho'.
      * rewrite count_window_dtype. exact Hstep.
Qed.

(** When the loops of [sliding_window_threshold] end, each cell of
    [num_repetitions] holds the number of windows that contain the pixel,
    modulo 2^width of the element type of the image. *)
Lemma num_repetitions_cell (e : bool) (image : gray_image)
  (wh wl vs hs : Z) (acc : ndarray float * gray_image) (i j : nat) :
  1 <= vs -> 1 <= hs ->
  sliding_window_accumulate e image wh wl vs hs = Ok acc ->
  (i < height image)%nat -> (j < length_of image)%nat ->
  cell 0 (pixels (snd acc)) i j
  = cast (dtype_of image)
         (Z.of_nat (length (filter (covers wh wl (Z.of_nat i) (Z.of_nat j))
                                   (window_offsets (Z.of_nat (height image))
                                                   (Z.of_nat (length_of image))
                                                   wh wl vs hs)))).
Proof.
  intros Hvs Hhs Hacc Hi Hj.
  rewrite (accumulate_counts e image wh wl vs hs acc Hacc).
  rewrite (fold_count_window_cell wh wl _ (zeros_like image)
             (length_of image) (height image) i j 0); try assumption.
  - reflexivity.
  - unfold row_lengths, zeros_like; cbn [pixels rows].
    rewrite map_repeat, repeat_length. reflexivity.
  - intros o Ho. apply in_grid_offsets in Ho as [Hv Hh].
    apply py_range_nonneg in Hv; [|lia]. apply py_range_nonneg in Hh; [|lia].
    lia.
  - unfold cell, zeros_like; cbn [pixels rows dtype_of].
    rewrite nth_repeat_lt by exact Hi. rewrite nth_repeat_lt by exact Hj.
    destruct (dtype_of image); reflexivity.
Qed.

(** * The claims *)

(** ** C1 *)




(** ** C2 *)

(** C2, as stated, fails on an image of unsigned 8-bit samples: all pixels
    of the 1x2 image [[7, 7]] share one value, the selected level is the
    sentinel -1, but no cell of the returned mask holds -1: each holds 255. *)
Lemma C2_uint8_mask_counterexample :
  let image := Image uint8 (Array 2 [[7; 7]]) in
  threshold true image = Ok (Image uint8 (Array 2 [[255; 255]])) /\
  threshold false image = Ok (Image uint8 (Array 2 [[255; 255]])) /\
  ~ (exists mask, threshold true image = Ok mask /\
                  cell 0 (pixels mask) 0 0 = -1).
Proof.
  assert (E : forall b, threshold b (Image uint8 (Array 2 [[7; 7]]))
                        = Ok (Image uint8 (Array 2 [[255; 255]])))
    by (intros []; vm_compute; reflexivity).
  cbv zeta. split; [apply E|]. split; [apply E|].
  intros (mask & Hmask & Hcell). rewrite E in Hmask.
  injection Hmask as <-. discriminate.
Qed.

(** C2 (amended): for every image with samples in which all pixels share one
    single value, the threshold selection skips all 256 candidates (each has
    P_lower = 0 or P_upper = 0) and falls back to the sentinel level -1,
    which is outside the valid intensity range [0,255]; [threshold] then
    returns [np.full_like(image, -1)], each cell of which holds the sentinel
    converted to the element type of the image, that is 2^width - 1 (255 for
    an unsigned 8-bit image), not -1. *)
Theorem C2_uniform_image_sentinel (empty_region_rejected : bool)
  (image : gray_image) (v : Z) :
  (0 < num_samples image)%nat ->
  (forall y, In y (samples image) -> y = v) ->
  let probs := probabilities (bin_counts (samples image))
                             (Z.of_nat (num_samples image)) in
  (forall t, (t < 256)%nat ->
             intraclass_variance probs t = None /\
             (sum (firstn (t + 1) probs) = 0%Qc \/
              sum (skipn (t + 1) probs) = 0%Qc)) /\
  scan_best_threshold probs = -1 /\
  ~ (0 <= -1 <= 255) /\
  threshold empty_region_rejected image = Ok (full_like image (-1)) /\
  (forall i j, (i < height image)%nat -> (j < length_of image)%nat ->
               cell 0 (pixels (full_like image (-1))) i j
               = 2 ^ width_of (dtype_of image) - 1).
Proof.
  intros Hpos Huniform probs.
  assert (Hskip : forall t, intraclass_variance probs t = None)
    by (intros t; apply (uniform_all_skipped _ _ v); exact Huniform).
  split.
  { intros t _. split; [apply Hskip|]. apply intraclass_variance_skipped, Hskip. }
  split.
  { apply all_skipped_sentinel. intros t _. apply Hskip. }
  split; [lia|]. split.
  { apply threshold_all_skipped; [exact Hpos|]. intros t _. apply Hskip. }
  intros i j Hi Hj. rewrite full_like_cell by assumption.
  destruct (dtype_of image); reflexivity.
Qed.

Lemma C2_uniform_image_sentinel_witness :
  let image := uniform_2x2 in
  let probs := probabilities (bin_counts (samples image))
                             (Z.of_nat (num_samples image)) in
  ((0 < num_samples image)%nat /\
   (forall y, In y (samples image) -> y = 7)) /\
  (forall t, (t < 256)%nat ->
             intraclass_variance probs t = None /\
             (sum (firstn (t + 1) probs) = 0%Qc \/
              sum (skipn (t + 1) probs) = 0%Qc)) /\
  scan_best_threshold probs = -1 /\
  ~ (0 <= -1 <= 255) /\
  threshold true image = Ok (full_like image (-1)) /\
  (forall i j, (i < height image)%nat -> (j < length_of image)%nat ->
               cell 0 (pixels (full_like image (-1))) i j
               = 2 ^ width_of (dtype_of image) - 1).
Proof.
  assert (Hpos : (0 < num_samples uniform_2x2)%nat) by (vm_compute; lia).
  assert (Hall : forall y, In y (samples uniform_2x2) -> y = 7)
    by (simpl; intuition congruence).
  cbv zeta. split; [split; [exact Hpos | exact Hall]|].
  exact (C2_uniform_image_sentinel true uniform_2x2 7 Hpos Hall).
Defined.

(** ** C9 *)

(** C9: for every image of unsigned 8-bit samples in which every one of the
    256 candidates is skipped, the mask returned by [threshold] holds 255 in
    every cell (the sentinel -1 modulo 2^8) and not -1: it is the very mask
    that the legitimate threshold 255 would give. *)
Theorem C9_uint8_sentinel_is_255 (empty_region_rejected : bool)
  (image : gray_image) :
  dtype_of image = uint8 ->
  (0 < num_samples image)%nat ->
  (forall t, (t < 256)%nat ->
             intraclass_variance
               (probabilities (bin_counts (samples image))
                              (Z.of_nat (num_samples image))) t = None) ->
  exists mask,
    threshold empty_region_rejected image = Ok mask /\
    (forall i j, (i < height image)%nat -> (j < length_of image)%nat ->
                 cell 0 (pixels mask) i j = 255 /\
                 cell 0 (pixels mask) i j = (-1) mod 2 ^ 8 /\
                 cell 0 (pixels mask) i j <> -1) /\
    mask = full_like image 255.
Proof.
  intros Hdtype Hpos Hskip. exists (full_like image (-1)).
  split; [apply threshold_all_skipped; assumption|].
  split.
  - intros i j Hi Hj. rewrite full_like_cell by assumption.
    rewrite Hdtype. repeat split. discriminate.
  - apply full_like_cast. rewrite Hdtype. reflexivity.
Qed.

Lemma C9_uint8_sentinel_is_255_witness :
  let image := black_2x1 in
  (dtype_of image = uint8 /\ (0 < num_samples image)%nat /\
   (forall t, (t < 256)%nat ->
              intraclass_variance
                (probabilities (bin_counts (samples image))
                               (Z.of_nat (num_samples image))) t = None)) /\
  exists mask,
    threshold false image = Ok mask /\
    (forall i j, (i < height image)%nat -> (j < length_of image)%nat ->
                 cell 0 (pixels mask) i j = 255 /\
                 cell 0 (pixels mask) i j = (-1) mod 2 ^ 8 /\
                 cell 0 (pixels mask) i j <> -1) /\
    mask = full_like image 255.
Proof.
  assert (Hpos : (0 < num_samples black_2x1)%nat) by (vm_compute; lia).
  assert (Hskip : forall t, (t < 256)%nat ->
            intraclass_variance
              (probabilities (bin_counts (samples black_2x1))
                             (Z.of_nat (num_samples black_2x1))) t
            = None).
  { intros t _. apply (uniform_all_skipped _ _ 0). simpl. intuition congruence. }
  cbv zeta. split; [split; [reflexivity | split; [exact Hpos | exact Hskip]]|].
  exact (C9_uint8_sentinel_is_255 false black_2x1 eq_refl Hpos Hskip).
Defined.

(** ** C3 *)

Lemma ceil_div_spec (a b : Z) :
  0 < b -> b * (ceil_div a b - 1) < a <= b * ceil_div a b.
Proof.
  intros Hb. unfold ceil_div.
  pose proof (Z.div_mod (a + b - 1) b ltac:(lia)).
  pose proof (Z.mod_pos_bound (a + b - 1) b Hb). lia.
Qed.

(** Integer division plus one is the ceiling except when the number of
    segments divides the dimension, where it is one more. *)
Lemma segment_height_ceiling (image_height num_vertical_segments : Z) :
  1 <= num_vertical_segments ->
  segment_height image_height num_vertical_segments
  = ceil_div image_height num_vertical_segments
    + (if image_height mod num_vertical_segments =? 0 then 1 else 0).
Proof.
  intros Hn. unfold segment_height.
  pose proof (ceil_div_spec image_height num_vertical_segments ltac:(lia)) as Hc.
  pose proof (Z.div_mod image_height num_vertical_segments ltac:(lia)) as Hdm.
  pose proof (Z.mod_pos_bound image_height num_vertical_segments ltac:(lia)) as Hm.
  destruct (Z.eqb_spec (image_height mod num_vertical_segments) 0) as [E|E]; nia.
Qed.

(** C3 (the code departs from it): for a 4x4 image cut in 2x2 segments the
    source computes a block height and a block width of 3, whereas the
    ceiling of 4/2 is 2; the blocks visited are then 3 and 1 pixels high and
    wide instead of 2 and 2.  Cut in 4x4 segments, the same image is
    visited in 4 blocks of 2x2 pixels, not in the 16 segments that the
    docstring announces. *)
Theorem C3_block_size_is_not_the_ceiling :
  segment_height 4 2 = 3 /\ ceil_div 4 2 = 2 /\
  segment_length 4 2 = 3 /\
  segment_offsets 4 4 2 2 = [(0, 0); (0, 3); (3, 0); (3, 3)] /\
  length (segment_offsets 4 4 4 4) = 4%nat.
Proof. repeat split. Qed.

(** ** C4 *)




(** ** C5 *)

(** C5, as stated, fails.  On the image without samples,
    [segmented_threshold] visits no block and returns the empty mask,
    whether or not the histogram builder rejects empty regions, and so does
    [sliding_window_threshold] with unit windows and strides: there is no
    failure to propagate.  When the histogram builder does not reject empty
    regions, [threshold] itself returns the empty mask; when it does, a
    non-empty image makes [sliding_window_threshold] fail, on a window that
    starts below the image. *)
Lemma C5_no_propagation_counterexample :
  num_samples empty_image = 0%nat /\
  segmented_threshold true empty_image 1 1 = Ok empty_image /\
  segmented_threshold false empty_image 1 1 = Ok empty_image /\
  sliding_window_threshold true empty_image 1 1 1 1 = Ok (Array 0 []) /\
  sliding_window_threshold false empty_image 1 1 1 1 = Ok (Array 0 []) /\
  threshold false empty_image = Ok empty_image /\
  (0 < num_samples column_5x1)%nat /\
  sliding_window_threshold true column_5x1 1 1 3 1 = Raise InvalidInput.
Proof.
  split; [reflexivity|]. split; [reflexivity|]. split; [reflexivity|].
  split; [reflexivity|]. split; [reflexivity|]. split; [reflexivity|].
  split; [vm_compute; lia|]. vm_compute. reflexivity.
Qed.

(** C5 (amended): [threshold] has no check of its own: on an image without
    samples it fails with InvalidInput exactly when the histogram builder
    rejects an empty region, and otherwise returns the empty mask.
    [segmented_threshold] passes no empty block to [threshold]: it returns
    normally on every image, and on an image without samples it visits no
    block and returns the empty mask.  [sliding_window_threshold], when the
    strides do not exceed the window sizes, passes no empty window to
    [threshold] and returns normally on every image, visiting no window of
    an image without samples.  On an image with samples [threshold] returns
    normally. *)
Theorem C5_empty_images (empty_region_rejected : bool)
  (empty image : gray_image)
  (num_vertical_segments num_horizontal_segments : Z)
  (window_height window_length vertical_stride horizontal_stride : Z) :
  num_samples empty = 0%nat -> (0 < num_samples image)%nat ->
  1 <= num_vertical_segments -> 1 <= num_horizontal_segments ->
  1 <= vertical_stride -> vertical_stride <= window_height ->
  1 <= horizontal_stride -> horizontal_stride <= window_length ->
  (* the image without samples *)
  threshold empty_region_rejected empty
  = (if empty_region_rejected then Raise InvalidInput
     else Ok (full_like empty (-1))) /\
  segmented_threshold empty_region_rejected empty
    num_vertical_segments num_horizontal_segments = Ok (zeros_like empty) /\
  sliding_window_threshold empty_region_rejected empty
    window_height window_length vertical_stride horizontal_stride
  = Ok (array_map2 float_div_count (zeros_like_float empty)
                   (pixels (zeros_like empty))) /\
  (* the image with samples *)
  (exists mask, threshold empty_region_rejected image = Ok mask) /\
  (exists mask,
      segmented_threshold empty_region_rejected image
        num_vertical_segments num_horizontal_segments = Ok mask) /\
  (exists mask,
      sliding_window_threshold empty_region_rejected image
        window_height window_length vertical_stride horizontal_stride = Ok mask).
Proof.
  intros H0 Hpos Hnv Hnh Hvs Hvw Hhs Hhw.
  split; [apply threshold_empty, H0|].
  split; [apply segmented_threshold_empty; assumption|].
  split; [apply sliding_window_empty; assumption|].
  split; [eexists; apply threshold_nonempty, Hpos|].
  split; [apply segmented_threshold_returns; assumption|].
  destruct (accumulate_returns empty_region_rejected image
              window_height window_length vertical_stride horizontal_stride)
    as ([tm nr] & Hacc); [lia | lia | |].
  - intros o Ho. apply in_grid_offsets in Ho as [Hv Hh].
    apply py_range_nonneg in Hv; [|lia]. apply py_range_nonneg in Hh; [|lia].
    lia.
  - unfold sliding_window_threshold. pass_guards.
    rewrite Hacc. simpl. eexists. reflexivity.
Qed.

Lemma C5_empty_images_witness :
  (num_samples empty_image = 0%nat /\ (0 < num_samples sample_3x4)%nat /\
   1 <= 2 /\ 1 <= 3 /\ 1 <= 1 /\ 1 <= 2 /\ 1 <= 2 /\ 2 <= 2) /\
  threshold true empty_image = Raise InvalidInput /\
  segmented_threshold true empty_image 2 3 = Ok (zeros_like empty_image) /\
  sliding_window_threshold true empty_image 2 2 1 2
  = Ok (array_map2 float_div_count (zeros_like_float empty_image)
                   (pixels (zeros_like empty_image))) /\
  (exists mask, threshold true sample_3x4 = Ok mask) /\
  (exists mask, segmented_threshold true sample_3x4 2 3 = Ok mask) /\
  (exists mask, sliding_window_threshold true sample_3x4 2 2 1 2 = Ok mask).
Proof.
  assert (Hpos : (0 < num_samples sample_3x4)%nat) by (vm_compute; lia).
  split; [split; [reflexivity | split; [exact Hpos | lia]]|].
  apply (C5_empty_images true empty_image sample_3x4 2 3 2 2 1 2);
    [reflexivity | exact Hpos | lia | lia | lia | lia | lia | lia].
Defined.

(** ** C6 *)



(** ** C7 *)

(** C7: for every image with samples, [segmented_threshold(image, 1, 1)]
    returns the mask that [threshold(image)] returns: same element type,
    same shape, same value in every cell. *)
Theorem C7_one_segment_is_global (empty_region_rejected : bool)
  (image : gray_image) :
  rectangular (pixels image) ->
  (0 < height image)%nat -> (0 < length_of image)%nat ->
  exists mask,
    threshold empty_region_rejected image = Ok mask /\
    segmented_threshold empty_region_rejected image 1 1 = Ok mask.
Proof.
  intros Hrect Hh Hw.
  assert (Hpos : (0 < num_samples image)%nat)
    by (unfold num_samples, size; fold (height image) (length_of image); nia).
  rewrite segmented_threshold_one_block by assumption.
  rewrite (threshold_nonempty _ _ Hpos).
  eexists. split; reflexivity.
Qed.

Lemma C7_one_segment_is_global_witness :
  (rectangular (pixels sample_3x4) /\
   (0 < height sample_3x4)%nat /\ (0 < length_of sample_3x4)%nat) /\
  exists mask,
    threshold true sample_3x4 = Ok mask /\
    segmented_threshold true sample_3x4 1 1 = Ok mask.
Proof.
  assert (Hrect : rectangular (pixels sample_3x4)) by (repeat constructor).
  assert (Hh : (0 < height sample_3x4)%nat) by (vm_compute; lia).
  assert (Hw : (0 < length_of sample_3x4)%nat) by (vm_compute; lia).
  split; [split; [exact Hrect | split; [exact Hh | exact Hw]]|].
  exact (C7_one_segment_is_global true sample_3x4 Hrect Hh Hw).
Defined.

(** ** C8 *)

(** C8: for every image with samples, with a window of the size of the image
    and strides at least as large as the image, [sliding_window_threshold]
    evaluates exactly one window, at offset (0, 0), and returns the mask of
    [threshold(image)] with each cell converted to floating point. *)
Theorem C8_full_window_is_global (empty_region_rejected : bool)
  (image : gray_image) (vertical_stride horizontal_stride : Z) :
  rectangular (pixels image) ->
  (0 < height image)%nat -> (0 < length_of image)%nat ->
  Z.of_nat (height image) <= vertical_stride ->
  Z.of_nat (length_of image) <= horizontal_stride ->
  let H := Z.of_nat (height image) in
  let W := Z.of_nat (length_of image) in
  window_offsets H W H W vertical_stride horizontal_stride = [(0, 0)] /\
  exists mask,
    threshold empty_region_rejected image = Ok mask /\
    sliding_window_threshold empty_region_rejected image H W
                             vertical_stride horizontal_stride
    = Ok (as_float_mask mask).
Proof.
  intros Hrect Hh Hw Hvs Hhs H W.
  split; [apply window_offsets_full; lia|].
  eexists. split.
  - apply threshold_nonempty.
    unfold num_samples, size. fold (height image) (length_of image). nia.
  - apply sliding_window_full; try assumption; lia.
Qed.

Lemma C8_full_window_is_global_witness :
  let H := Z.of_nat (height sample_3x4) in
  let W := Z.of_nat (length_of sample_3x4) in
  (rectangular (pixels sample_3x4) /\
   (0 < height sample_3x4)%nat /\ (0 < length_of sample_3x4)%nat /\
   H <= 3 /\ W <= 5) /\
  window_offsets H W H W 3 5 = [(0, 0)] /\
  exists mask,
    threshold false sample_3x4 = Ok mask /\
    sliding_window_threshold false sample_3x4 H W 3 5 = Ok (as_float_mask mask).
Proof.
  assert (Hrect : rectangular (pixels sample_3x4)) by (repeat constructor).
  assert (Hh : (0 < height sample_3x4)%nat) by (vm_compute; lia).
  assert (Hw : (0 < length_of sample_3x4)%nat) by (vm_compute; lia).
  assert (Hvs : Z.of_nat (height sample_3x4) <= 3) by (vm_compute; discriminate).
  assert (Hhs : Z.of_nat (length_of sample_3x4) <= 5) by (vm_compute; discriminate).
  cbv zeta. split.
  - split; [exact Hrect|]. split; [exact Hh|]. split; [exact Hw|].
    split; [exact Hvs | exact Hhs].
  - exact (C8_full_window_is_global false sample_3x4 3 5 Hrect Hh Hw Hvs Hhs).
Defined.

(** ** C10 *)


(** Outside that condition pixels can be left without any window: with a
    stride of 2 and a window of 1, the middle row of a 3x1 image is in no
    window and its count stays 0. *)
Lemma stride_gap_leaves_zero_count :
  let image := Image uint8 (Array 1 [[10]; [200]; [10]]) in
  let counts := fold_left (count_window 1 1) (window_offsets 3 1 1 1 2 1)
                          (zeros_like image) in
  window_offsets 3 1 1 1 2 1 = [(0, 0); (2, 0)] /\
  cell 0 (pixels counts) 1 0 = 0.
Proof. split; reflexivity. Qed.

(** A window larger than the image: no window is evaluated and every count
    stays 0. *)
Lemma oversized_window_no_window :
  window_offsets 2 2 5 5 1 1 = [] /\
  sliding_window_accumulate true (Image uint8 (Array 2 [[10; 200]; [200; 10]]))
                            5 5 1 1
  = Ok (Array 2 [[Fin 0%Qc; Fin 0%Qc]; [Fin 0%Qc; Fin 0%Qc]],
        Image uint8 (Array 2 [[0; 0]; [0; 0]])).
Proof. split; reflexivity. Qed.

(** C10 (the code departs from it): on a 31x31 image of unsigned 8-bit
    samples, with 16x16 windows and strides of 1 (stride <= window <= image
    in both directions), the pixel (15, 15) lies in 256 windows, but its
    cell of the contribution-count array, which has the element type of the
    image, holds 256 mod 2^8 = 0 when the loops end, and the final division
    divides by zero there: the cell of the result is not a finite number. *)
Theorem C10_count_wraps_to_zero (empty_region_rejected : bool)
  (image : gray_image) :
  dtype_of image = uint8 ->
  height image = 31%nat -> length_of image = 31%nat ->
  length (filter (covers 16 16 15 15) (window_offsets 31 31 16 16 1 1)) = 256%nat /\
  exists threshold_mask num_repetitions result,
    sliding_window_accumulate empty_region_rejected image 16 16 1 1
    = Ok (threshold_mask, num_repetitions) /\
    cell 0 (pixels num_repetitions) 15 15 = 0 /\
    sliding_window_threshold empty_region_rejected image 16 16 1 1 = Ok result /\
    forall q, cell NaN result 15 15 <> Fin q.
Proof.
  intros Hd Hh Hw. split; [vm_compute; reflexivity|].
  destruct (accumulate_returns empty_region_rejected image 16 16 1 1)
    as ([tm nr] & Hacc); [lia | lia | |].
  { intros o Ho. rewrite Hh, Hw in *. change (Z.of_nat 31) with 31 in *.
    apply in_grid_offsets in Ho as [Hv Hc].
    apply py_range_nonneg in Hv; [|lia]. apply py_range_nonneg in Hc; [|lia].
    lia. }
  pose proof (accumulate_counts _ _ _ _ _ _ _ Hacc) as Hcount.
  pose proof (accumulate_shape _ _ _ _ _ _ _ Hacc) as Hshape.
  cbn [fst snd] in Hcount, Hshape.
  rewrite Hh, Hw in Hcount, Hshape. change (Z.of_nat 31) with 31 in Hcount.
  assert (Hz : zeros_like image = black_31x31).
  { unfold zeros_like, black_31x31. rewrite Hd, Hh, Hw. reflexivity. }
  rewrite Hz in Hcount.
  assert (Hcell : cell 0 (pixels nr) 15 15 = 0)
    by (rewrite Hcount; vm_compute; reflexivity).
  assert (Hnr : row_lengths (pixels nr) = repeat 31%nat 31%nat)
    by (rewrite Hcount; vm_compute; reflexivity).
  exists tm, nr, (array_map2 float_div_count tm (pixels nr)).
  split; [exact Hacc|]. split; [exact Hcell|]. split.
  - unfold sliding_window_threshold. cbn [Z.ltb Z.compare]. rewrite Hacc.
    reflexivity.
  - intros q.
    rewrite (array_map2_cell float_div_count tm (pixels nr) NaN 0 NaN 31 31 15 15)
      by (try assumption; lia).
    rewrite Hcell. apply float_div_count_zero.
Qed.

Lemma C10_count_wraps_to_zero_witness :
  (dtype_of black_31x31 = uint8 /\
   height black_31x31 = 31%nat /\ length_of black_31x31 = 31%nat) /\
  length (filter (covers 16 16 15 15) (window_offsets 31 31 16 16 1 1)) = 256%nat /\
  exists threshold_mask num_repetitions result,
    sliding_window_accumulate true black_31x31 16 16 1 1
    = Ok (threshold_mask, num_repetitions) /\
    cell 0 (pixels num_repetitions) 15 15 = 0 /\
    sliding_window_threshold true black_31x31 16 16 1 1 = Ok result /\
    forall q, cell NaN result 15 15 <> Fin q.
Proof.
  split; [split; [reflexivity | split; reflexivity]|].
  exact (C10_count_wraps_to_zero true black_31x31 eq_refl eq_refl eq_refl).
Defined.

(** * Further properties of the three functions *)

(** ** The selected level *)

Lemma scan_range (J : nat -> option Qc) (n : nat) :
  fst (scan J n) = -1 \/ 0 <= fst (scan J n) < Z.of_nat n.
Proof.
  destruct (scan_invariant J n) as [_ | t v Ht _ _ _]; cbn [fst]; [left | right];
    lia.
Qed.

Lemma selected_level_range (region : gray_image) :
  selected_level region = -1 \/ 0 <= selected_level region <= 255.
Proof.
  unfold selected_level, scan_best_threshold.
  rewrite probabilities_length, bin_counts_length.
  destruct (scan_range
              (intraclass_variance
                 (probabilities (bin_counts (samples region))
                                (Z.of_nat (num_samples region)))) 256)
    as [H|H]; [left; exact H | right; lia].
Qed.

Lemma threshold_selected_level (e : bool) (image : gray_image) :
  (0 < num_samples image)%nat ->
  threshold e image = Ok (full_like image (selected_level image)).
Proof. apply threshold_nonempty. Qed.

Lemma full_like_row_lengths (image : gray_image) (z : Z) :
  row_lengths (pixels (full_like image z))
  = repeat (length_of image) (height image).
Proof.
  unfold row_lengths, full_like; cbn [pixels rows].
  rewrite map_repeat, repeat_length. reflexivity.
Qed.

(** The mask of [threshold] has the element type and the shape of the image
    and one value in all its cells: a level of 0..255, or the sentinel -1, as
    the element type stores it. *)
Theorem X1_threshold_mask_is_uniform (empty_region_rejected : bool)
  (image : gray_image) :
  (0 < num_samples image)%nat ->
  exists mask level,
    threshold empty_region_rejected image = Ok mask /\
    (level = -1 \/ 0 <= level <= 255) /\
    dtype_of mask = dtype_of image /\
    length_of mask = length_of image /\
    row_lengths (pixels mask) = repeat (length_of image) (height image) /\
    forall i j, (i < height image)%nat -> (j < length_of image)%nat ->
                cell 0 (pixels mask) i j = cast (dtype_of image) level.
Proof.
  intros Hpos.
  exists (full_like image (selected_level image)), (selected_level image).
  split; [apply threshold_selected_level, Hpos|].
  split; [apply selected_level_range|].
  split; [reflexivity|]. split; [reflexivity|].
  split; [apply full_like_row_lengths|].
  intros i j Hi Hj. apply full_like_cell; assumption.
Qed.

Lemma X1_threshold_mask_is_uniform_witness :
  (0 < num_samples sample_3x4)%nat /\
  exists mask level,
    threshold true sample_3x4 = Ok mask /\
    (level = -1 \/ 0 <= level <= 255) /\
    dtype_of mask = dtype_of sample_3x4 /\
    length_of mask = length_of sample_3x4 /\
    row_lengths (pixels mask)
    = repeat (length_of sample_3x4) (height sample_3x4) /\
    forall i j, (i < height sample_3x4)%nat -> (j < length_of sample_3x4)%nat ->
                cell 0 (pixels mask) i j = cast (dtype_of sample_3x4) level.
Proof.
  assert (Hpos : (0 < num_samples sample_3x4)%nat) by (vm_compute; lia).
  split; [exact Hpos|].
  exact (X1_threshold_mask_is_uniform true sample_3x4 Hpos).
Defined.

(** ** When a level is selected, and what it separates *)

Lemma Qcplus_zero_nonneg (a b : Qc) :
  (0 <= a)%Qc -> (0 <= b)%Qc -> (a + b)%Qc = 0%Qc -> a = 0%Qc /\ b = 0%Qc.
Proof.
  intros Ha Hb H.
  assert (Ha0 : (a <= 0)%Qc).
  { rewrite <- H. replace a with (a + 0)%Qc at 1 by ring.
    apply Qcplus_le_compat; [apply Qcle_refl | exact Hb]. }
  assert (Ea : a = 0%Qc) by (apply Qcle_antisym; assumption).
  split; [exact Ea|]. rewrite Ea in H. rewrite <- H. ring.
Qed.

Lemma sum_nonneg_zero_inv (l : list Qc) :
  Forall (fun p => (0 <= p)%Qc) l -> sum l = 0%Qc -> Forall (fun p => p = 0%Qc) l.
Proof.
  induction 1 as [|x l Hx Hl IH]; intros Hs; [constructor|].
  rewrite sum_cons in Hs.
  destruct (Qcplus_zero_nonneg x (sum l) Hx (sum_nonneg l Hl) Hs) as [E0 Es].
  constructor; [exact E0 | exact (IH Es)].
Qed.

Lemma sum_nonzero_exists (l : list Qc) :
  sum l <> 0%Qc -> exists i p, nth_error l i = Some p /\ p <> 0%Qc.
Proof.
  induction l as [|x l IH]; intros Hs.
  - elim Hs. apply sum_nil.
  - destruct (Qc_eq_dec x 0) as [E|E].
    + rewrite sum_cons, E in Hs.
      destruct IH as (i & p & Hi & Hp).
      { intros H0. apply Hs. rewrite H0. ring. }
      exists (S i), p. auto.
    + exists 0%nat, x. auto.
Qed.

Lemma nonzero_probability_occupied (s : list Z) (N : Z) (i : nat) (p : Qc) :
  nth_error (probabilities (bin_counts s) N) i = Some p -> p <> 0%Qc ->
  (i < 256)%nat /\ In (Z.of_nat i) s.
Proof.
  intros Hi Hp. apply probabilities_bin_counts_nth in Hi as [Hlt ->].
  split; [exact Hlt|].
  apply (count_occ_In Z.eq_dec).
  destruct (count_occ Z.eq_dec s (Z.of_nat i)) as [|n]; [|lia].
  elim Hp. change (Z.of_nat 0) with 0. rewrite Z2Qc_0. apply Qc_zero_div.
Qed.

(** Two occupied levels: the split at the lower one is not skipped. *)
Lemma two_occupied_not_skipped (probs : list Qc) (a b : nat) (pa pb : Qc) :
  Forall (fun p => (0 <= p)%Qc) probs ->
  (a < b)%nat ->
  nth_error probs a = Some pa -> pa <> 0%Qc ->
  nth_error probs b = Some pb -> pb <> 0%Qc ->
  intraclass_variance probs a <> None.
Proof.
  intros Hnn Hab Ha Hpa Hb Hpb Hnone.
  apply intraclass_variance_skipped in Hnone as [H0|H0].
  - apply sum_nonneg_zero_inv in H0; [|apply Forall_firstn, Hnn].
    rewrite Forall_forall in H0. apply Hpa, H0.
    apply (nth_error_In _ a). rewrite nth_error_firstn.
    destruct (Nat.ltb_spec a (a + 1)); [exact Ha | lia].
  - apply sum_nonneg_zero_inv in H0; [|apply Forall_skipn, Hnn].
    rewrite Forall_forall in H0. apply Hpb, H0.
    apply (nth_error_In _ (b - a - 1)). rewrite nth_error_skipn.
    replace (a + 1 + (b - a - 1))%nat with b by lia. exact Hb.
Qed.

Lemma selected_level_not_sentinel (image : gray_image) (x y : Z) :
  (0 < num_samples image)%nat ->
  In x (samples image) -> In y (samples image) ->
  0 <= x -> x < y -> y <= 255 ->
  selected_level image <> -1.
Proof.
  intros Hpos Hx Hy Hx0 Hxy Hy255.
  set (N := Z.of_nat (num_samples image)).
  destruct (scan_best_threshold_first_argmin (bin_counts (samples image)) N)
    as (t & Ht & _).
  - apply bin_counts_length.
  - exists (Z.to_nat x). split; [lia|].
    apply (two_occupied_not_skipped _ (Z.to_nat x) (Z.to_nat y)
             (Z2Qc (Z.of_nat (count_occ Z.eq_dec (samples image) x)) / Z2Qc N)%Qc
             (Z2Qc (Z.of_nat (count_occ Z.eq_dec (samples image) y)) / Z2Qc N)%Qc).
    + apply probabilities_nonneg. lia.
    + lia.
    + rewrite probabilities_bin_counts_at by lia. rewrite Z2Nat.id by lia.
      reflexivity.
    + apply occupied_probability; [lia | exact Hx].
    + rewrite probabilities_bin_counts_at by lia. rewrite Z2Nat.id by lia.
      reflexivity.
    + apply occupied_probability; [lia | exact Hy].
  - unfold selected_level. fold N. rewrite Ht. lia.
Qed.

(** [threshold] falls back to the sentinel exactly when the samples of
    0..255 do not take two different values. *)
Theorem X2_sentinel_iff_single_level (image : gray_image) :
  (0 < num_samples image)%nat ->
  selected_level image = -1 <->
  (forall x y, In x (samples image) -> In y (samples image) ->
               0 <= x <= 255 -> 0 <= y <= 255 -> x = y).
Proof.
  intros Hpos. split.
  - intros Hs x y Hx Hy Rx Ry.
    destruct (Z.lt_trichotomy x y) as [Hlt | [Heq | Hgt]]; [|exact Heq|].
    + elim (selected_level_not_sentinel image x y Hpos Hx Hy); (lia || exact Hs).
    + elim (selected_level_not_sentinel image y x Hpos Hy Hx); (lia || exact Hs).
  - intros Hone. unfold selected_level. apply all_skipped_sentinel. intros t _.
    destruct (existsb (fun x => (0 <=? x) && (x <=? 255)) (samples image)) eqn:Ex.
    + apply existsb_exists in Ex as (x & Hx & Rx).
      apply andb_true_iff in Rx as [R0 R1].
      apply Z.leb_le in R0. apply Z.leb_le in R1.
      apply (single_level_all_skipped _ (Z.to_nat x)).
      intros i p Hi Hne. destruct (Qc_eq_dec p 0) as [E|E]; [exact E|].
      destruct (nonzero_probability_occupied _ _ _ _ Hi E) as [Hlt Hin].
      elim Hne. rewrite <- (Hone (Z.of_nat i) x Hin Hx) by lia. lia.
    + apply (single_level_all_skipped _ 0%nat).
      intros i p Hi _. destruct (Qc_eq_dec p 0) as [E|E]; [exact E|].
      destruct (nonzero_probability_occupied _ _ _ _ Hi E) as [Hlt Hin].
      assert (Hf : existsb (fun x => (0 <=? x) && (x <=? 255)) (samples image) = true).
      { apply existsb_exists. exists (Z.of_nat i). split; [exact Hin|].
        apply andb_true_iff. split; apply Z.leb_le; lia. }
      congruence.
Qed.

Lemma X2_sentinel_iff_single_level_witness :
  (0 < num_samples uniform_2x2)%nat /\
  (selected_level uniform_2x2 = -1 <->
   (forall x y, In x (samples uniform_2x2) -> In y (samples uniform_2x2) ->
                0 <= x <= 255 -> 0 <= y <= 255 -> x = y)).
Proof.
  assert (Hpos : (0 < num_samples uniform_2x2)%nat) by (vm_compute; lia).
  split; [exact Hpos|].
  exact (X2_sentinel_iff_single_level uniform_2x2 Hpos).
Defined.

Lemma scan_kept (J : nat -> option Qc) (n : nat) :
  fst (scan J n) <> -1 ->
  exists t v, fst (scan J n) = Z.of_nat t /\ (t < n)%nat /\ J t = Some v.
Proof.
  destruct (scan_invariant J n) as [_ | t v Ht HJ _ _]; cbn [fst]; intros H.
  - congruence.
  - exists t, v. auto.
Qed.

Lemma selected_level_kept (image : gray_image) :
  selected_level image <> -1 ->
  exists t v,
    selected_level image = Z.of_nat t /\ (t < 256)%nat /\
    intraclass_variance
      (probabilities (bin_counts (samples image))
                     (Z.of_nat (num_samples image))) t = Some v.
Proof.
  unfold selected_level, scan_best_threshold.
  rewrite probabilities_length, bin_counts_length. apply scan_kept.
Qed.

(** A level selected by [threshold] leaves pixels on both sides: some pixel
    is at most the level and some pixel of 0..255 is above it. *)
Theorem X3_selected_level_separates (empty_region_rejected : bool)
  (image : gray_image) :
  (0 < num_samples image)%nat ->
  selected_level image <> -1 ->
  threshold empty_region_rejected image
  = Ok (full_like image (selected_level image)) /\
  (exists x, In x (samples image) /\ 0 <= x <= selected_level image) /\
  (exists y, In y (samples image) /\ selected_level image < y <= 255).
Proof.
  intros Hpos Hsel. split; [apply threshold_selected_level, Hpos|].
  destruct (selected_level_kept image Hsel) as (t & v & Et & Ht & HJ).
  rewrite Et.
  set (probs := probabilities (bin_counts (samples image))
                              (Z.of_nat (num_samples image))) in *.
  assert (Hl : sum (firstn (t + 1) probs) <> 0%Qc).
  { intros H0. assert (intraclass_variance probs t = None)
      by (apply intraclass_variance_skipped; left; exact H0). congruence. }
  assert (Hu : sum (skipn (t + 1) probs) <> 0%Qc).
  { intros H0. assert (intraclass_variance probs t = None)
      by (apply intraclass_variance_skipped; right; exact H0). congruence. }
  split.
  - destruct (sum_nonzero_exists _ Hl) as (i & p & Hi & Hp).
    apply nth_error_firstn_Some in Hi as [Hit Hi].
    destruct (nonzero_probability_occupied _ _ _ _ Hi Hp) as [_ Hin].
    exists (Z.of_nat i). split; [exact Hin | lia].
  - destruct (sum_nonzero_exists _ Hu) as (i & p & Hi & Hp).
    rewrite nth_error_skipn in Hi.
    destruct (nonzero_probability_occupied _ _ _ _ Hi Hp) as [Hlt Hin].
    exists (Z.of_nat (t + 1 + i)). split; [exact Hin | lia].
Qed.

Lemma X3_selected_level_separates_witness :
  ((0 < num_samples two_valued_2x2)%nat /\ selected_level two_valued_2x2 <> -1) /\
  threshold false two_valued_2x2
  = Ok (full_like two_valued_2x2 (selected_level two_valued_2x2)) /\
  (exists x, In x (samples two_valued_2x2) /\
             0 <= x <= selected_level two_valued_2x2) /\
  (exists y, In y (samples two_valued_2x2) /\
             selected_level two_valued_2x2 < y <= 255).
Proof.
  assert (Hpos : (0 < num_samples two_valued_2x2)%nat) by (vm_compute; lia).
  assert (Hsel : selected_level two_valued_2x2 <> -1)
    by (vm_compute; discriminate).
  split; [split; [exact Hpos | exact Hsel]|].
  exact (X3_selected_level_separates false two_valued_2x2 Hpos Hsel).
Defined.

(** ** The mask depends on the histogram only *)

Lemma bin_counts_Permutation (s s' : list Z) :
  Permutation s s' -> bin_counts s = bin_counts s'.
Proof.
  intros HP. unfold bin_counts. apply map_ext. intros level.
  rewrite (proj1 (Permutation_count_occ Z.eq_dec s s') HP). reflexivity.
Qed.

(** Two images of the same element type and shape whose pixels are the same
    up to their positions get the same mask from [threshold]. *)
Theorem X4_threshold_depends_on_histogram (empty_region_rejected : bool)
  (image image' : gray_image) :
  dtype_of image = dtype_of image' ->
  height image = height image' -> length_of image = length_of image' ->
  Permutation (samples image) (samples image') ->
  threshold empty_region_rejected image = threshold empty_region_rejected image'.
Proof.
  intros Hd Hh Hw HP.
  assert (HN : num_samples image = num_samples image').
  { unfold num_samples, size. fold (height image) (length_of image)
      (height image') (length_of image'). rewrite Hh, Hw. reflexivity. }
  unfold threshold, calcHist, full_like.
  rewrite (bin_counts_Permutation _ _ HP), HN, Hd, Hh, Hw. reflexivity.
Qed.

Lemma X4_threshold_depends_on_histogram_witness :
  (dtype_of sample_3x4 = dtype_of sample_3x4_rotated /\
   height sample_3x4 = height sample_3x4_rotated /\
   length_of sample_3x4 = length_of sample_3x4_rotated /\
   Permutation (samples sample_3x4) (samples sample_3x4_rotated)) /\
  threshold true sample_3x4 = threshold true sample_3x4_rotated.
Proof.
  assert (HP : Permutation (samples sample_3x4) (samples sample_3x4_rotated))
    by exact (Permutation_rev (samples sample_3x4)).
  split; [split; [reflexivity | split; [reflexivity | split; [reflexivity | exact HP]]]|].
  exact (X4_threshold_depends_on_histogram true sample_3x4 sample_3x4_rotated
           eq_refl eq_refl eq_refl HP).
Defined.

(** ** Which errors are raised *)

Lemma threshold_raise_inv (e : bool) (image : gray_image) (x : exn) :
  threshold e image = Raise x ->
  x = InvalidInput /\ e = true /\ num_samples image = 0%nat.
Proof.
  unfold threshold, calcHist.
  destruct (Nat.eqb_spec (num_samples image) 0) as [E|E]; cbn [andb].
  - destruct e; cbn [bind]; [|discriminate]. intros [= <-]. auto.
  - cbn [bind]. discriminate.
Qed.

Lemma for_each_raise {S X} (body : S -> X -> result S) (xs : list X) (s : S)
  (x : exn) :
  for_each body xs s = Raise x ->
  exists s0 y, In y xs /\ body s0 y = Raise x.
Proof.
  revert s; induction xs as [|y xs IH]; intros s; simpl; [discriminate|].
  destruct (body s y) as [s1|err] eqn:E; simpl.
  - intros H. destruct (IH s1 H) as (s0 & y' & Hin & Hb).
    exists s0, y'. auto.
  - intros [= <-]. exists s, y. auto.
Qed.

Lemma segmented_threshold_loop (e : bool) (image : gray_image) (nv nh : Z) :
  segmented_threshold e image nv nh
  = if nv <? 1 then Raise ValueError
    else if nh <? 1 then Raise ValueError
    else for_each
           (segment_step e image
              (segment_height (Z.of_nat (height image)) nv)
              (segment_length (Z.of_nat (length_of image)) nh))
           (segment_offsets (Z.of_nat (height image))
                            (Z.of_nat (length_of image)) nv nh)
           (zeros_like image).
Proof. reflexivity. Qed.

Lemma sliding_window_returns (e : bool) (image : gray_image)
  (wh wl vs hs : Z) :
  1 <= vs -> vs <= wh -> 1 <= hs -> hs <= wl ->
  exists acc,
    sliding_window_accumulate e image wh wl vs hs = Ok acc /\
    sliding_window_threshold e image wh wl vs hs
    = Ok (array_map2 float_div_count (fst acc) (pixels (snd acc))).
Proof.
  intros Hvs Hvw Hhs Hhw.
  destruct (accumulate_returns e image wh wl vs hs) as ([tm nr] & Hacc);
    [lia | lia | |].
  - intros o Ho. apply in_grid_offsets in Ho as [Hv Hh].
    apply py_range_nonneg in Hv; [|lia]. apply py_range_nonneg in Hh; [|lia].
    lia.
  - exists (tm, nr). split; [exact Hacc|].
    unfold sliding_window_threshold. pass_guards. rewrite Hacc. reflexivity.
Qed.

(** [segmented_threshold] raises nothing but [ValueError], and raises it
    exactly when a number of segments is below 1: no block ever makes
    [threshold] fail. *)
Theorem X5_segmented_threshold_errors (empty_region_rejected : bool)
  (image : gray_image) (num_vertical_segments num_horizontal_segments : Z)
  (x : exn) :
  segmented_threshold empty_region_rejected image
                      num_vertical_segments num_horizontal_segments = Raise x
  <-> x = ValueError /\
      (num_vertical_segments < 1 \/ num_horizontal_segments < 1).
Proof.
  split.
  - intros H.
    destruct (Z.ltb_spec num_vertical_segments 1) as [Hv|Hv].
    + unfold segmented_threshold in H.
      apply Z.ltb_lt in Hv as Ev. rewrite Ev in H. injection H as <-. auto.
    + destruct (Z.ltb_spec num_horizontal_segments 1) as [Hh|Hh].
      * unfold segmented_threshold in H.
        apply Z.ltb_ge in Hv as Ev. apply Z.ltb_lt in Hh as Eh.
        rewrite Ev, Eh in H. injection H as <-. auto.
      * destruct (segmented_threshold_returns empty_region_rejected image
                    num_vertical_segments num_horizontal_segments Hv Hh)
          as (mask & Hmask).
        congruence.
  - intros [-> Hbad]. unfold segmented_threshold.
    destruct (Z.ltb_spec num_vertical_segments 1) as [Hv|Hv]; [reflexivity|].
    destruct (Z.ltb_spec num_horizontal_segments 1) as [Hh|Hh]; [reflexivity|].
    lia.
Qed.

(** [sliding_window_threshold] raises [ValueError] exactly when one of its
    four parameters is below 1; it can fail on the histogram of an empty
    window only when the histogram builder rejects empty regions and a stride
    exceeds its window. *)
Theorem X6_sliding_window_threshold_errors (empty_region_rejected : bool)
  (image : gray_image)
  (window_height window_length vertical_stride horizontal_stride : Z) :
  (sliding_window_threshold empty_region_rejected image window_height
     window_length vertical_stride horizontal_stride = Raise ValueError
   <-> window_height < 1 \/ window_length < 1 \/
       vertical_stride < 1 \/ horizontal_stride < 1) /\
  (sliding_window_threshold empty_region_rejected image window_height
     window_length vertical_stride horizontal_stride = Raise InvalidInput
   -> empty_region_rejected = true /\
      1 <= window_height /\ 1 <= window_length /\
      (window_height < vertical_stride \/ window_length < horizontal_stride)).
Proof.
  assert (Hbody : forall x,
            1 <= window_height -> 1 <= window_length ->
            1 <= vertical_stride -> 1 <= horizontal_stride ->
            sliding_window_threshold empty_region_rejected image window_height
              window_length vertical_stride horizontal_stride = Raise x ->
            x = InvalidInput /\ empty_region_rejected = true).
  { intros x H1 H2 H3 H4. unfold sliding_window_threshold. pass_guards.
    destruct (sliding_window_accumulate _ _ _ _ _ _) as [[tm nr]|err] eqn:Eacc;
      cbn [bind]; [discriminate|].
    intros [= ->]. unfold sliding_window_accumulate in Eacc.
    apply for_each_raise in Eacc as ([tm nr] & [vo ho] & _ & Hstep).
    unfold window_step in Hstep.
    destruct (threshold empty_region_rejected _) as [m|err] eqn:Et;
      cbn [bind] in Hstep; [discriminate|].
    injection Hstep as ->. apply threshold_raise_inv in Et. tauto. }
  split; [split|].
  - intros H.
    destruct (Z.ltb_spec window_height 1); [auto|].
    destruct (Z.ltb_spec window_length 1); [auto|].
    destruct (Z.ltb_spec vertical_stride 1); [auto|].
    destruct (Z.ltb_spec horizontal_stride 1); [auto|].
    destruct (Hbody ValueError) as [Hx _]; try assumption. discriminate.
  - intros Hbad. unfold sliding_window_threshold.
    destruct (Z.ltb_spec window_height 1); [reflexivity|].
    destruct (Z.ltb_spec window_length 1); [reflexivity|].
    destruct (Z.ltb_spec vertical_stride 1); [reflexivity|].
    destruct (Z.ltb_spec horizontal_stride 1); [reflexivity|].
    lia.
  - intros H.
    assert (Hok : 1 <= window_height /\ 1 <= window_length /\
                  1 <= vertical_stride /\ 1 <= horizontal_stride).
    { unfold sliding_window_threshold in H.
      destruct (Z.ltb_spec window_height 1); [discriminate|].
      destruct (Z.ltb_spec window_length 1); [discriminate|].
      destruct (Z.ltb_spec vertical_stride 1); [discriminate|].
      destruct (Z.ltb_spec horizontal_stride 1); [discriminate|].
      lia. }
    destruct Hok as (H1 & H2 & H3 & H4).
    destruct (Hbody InvalidInput H1 H2 H3 H4 H) as [_ He].
    split; [exact He|]. split; [exact H1|]. split; [exact H2|].
    destruct (Z_lt_le_dec window_height vertical_stride) as [?|Hv]; [auto|].
    destruct (Z_lt_le_dec window_length horizontal_stride) as [?|Hh]; [auto|].
    destruct (sliding_window_returns empty_region_rejected image window_height
                window_length vertical_stride horizontal_stride H3 Hv H4 Hh)
      as (acc & _ & Hr).
    congruence.
Qed.

Lemma X6_sliding_window_threshold_errors_witness :
  sliding_window_threshold true column_5x1 1 1 3 1 = Raise InvalidInput /\
  true = true /\ 1 <= 1 /\ 1 <= 1 /\ (1 < 3 \/ 1 < 1).
Proof.
  assert (H : sliding_window_threshold true column_5x1 1 1 3 1 = Raise InvalidInput)
    by (vm_compute; reflexivity).
  split; [exact H|].
  exact (proj2 (X6_sliding_window_threshold_errors true column_5x1 1 1 3 1) H).
Defined.

(** ** The mask of [segmented_threshold], cell by cell *)

Lemma segment_step_shape (e : bool) (image : gray_image) (sh sw : Z)
  (tm tm' : gray_image) (o : Z * Z) :
  segment_step e image sh sw tm o = Ok tm' ->
  dtype_of tm' = dtype_of tm /\ length_of tm' = length_of tm /\
  row_lengths (pixels tm') = row_lengths (pixels tm).
Proof.
  unfold segment_step. destruct o as [vo ho].
  destruct (threshold e _) as [m|err]; cbn [bind]; [|discriminate].
  intros [= <-]. cbn [dtype_of pixels].
  split; [reflexivity|]. split; [reflexivity|]. apply update_slice_row_lengths.
Qed.

Lemma bind_Ok {A B} (a : A) (f : A -> result B) : bind (Ok a) f = f a.
Proof. reflexivity. Qed.

Lemma Ok_inj {A} (a b : A) : Ok a = Ok b -> a = b.
Proof. intros [= H]. exact H. Qed.

Lemma segment_step_unfold (e : bool) (image : gray_image) (sh sw : Z)
  (tm : gray_image) (o : Z * Z) :
  segment_step e image sh sw tm o
  = bind (threshold e (region_at image sh sw o))
         (fun mask => Ok (write_block tm mask
                            (Z.to_nat (fst o)) (Z.to_nat (fst o + sh))
                            (Z.to_nat (snd o)) (Z.to_nat (snd o + sw)))).
Proof. destruct o. reflexivity. Qed.

Lemma write_block_cell (tm mask : gray_image) (r0 r1 c0 c1 i j : nat)
  (r : list Z) (x : Z) :
  nth_error (rows (pixels tm)) i = Some r -> nth_error r j = Some x ->
  cell 0 (pixels (write_block tm mask r0 r1 c0 c1)) i j
  = if in_slice r0 r1 i && in_slice c0 c1 j
    then cell 0 (pixels mask) (i - r0) (j - c0)
    else x.
Proof.
  intros Hr Hx. unfold write_block. cbn [pixels].
  apply (update_slice_cell 0 (fun i j _ => cell 0 (pixels mask) i j)
           r0 r1 c0 c1 (pixels tm) i j r x Hr Hx).
Qed.

Lemma region_at_height (image : gray_image) (sh sw : Z) (o : Z * Z) :
  height (region_at image sh sw o)
  = (Nat.min (Z.to_nat (fst o + sh)) (height image) - Z.to_nat (fst o))%nat.
Proof. apply image_slice_height. Qed.

Lemma region_at_length_of (image : gray_image) (sh sw : Z) (o : Z * Z) :
  length_of (region_at image sh sw o)
  = (Nat.min (Z.to_nat (snd o + sw)) (length_of image)
     - Nat.min (Z.to_nat (snd o)) (length_of image))%nat.
Proof. apply image_slice_length_of. Qed.

Lemma region_at_nonempty (image : gray_image) (sh sw : Z) (o : Z * Z) :
  0 <= fst o < Z.of_nat (height image) ->
  0 <= snd o < Z.of_nat (length_of image) ->
  1 <= sh -> 1 <= sw ->
  (0 < num_samples (region_at image sh sw o))%nat.
Proof. intros Hv Hh Hsh Hsw. apply image_slice_nonempty; lia. Qed.

Lemma segment_step_cell (e : bool) (image : gray_image) (sh sw : Z)
  (tm tm' : gray_image) (o : Z * Z) (i j : nat) :
  0 <= fst o < Z.of_nat (height image) ->
  0 <= snd o < Z.of_nat (length_of image) ->
  1 <= sh -> 1 <= sw ->
  row_lengths (pixels tm) = repeat (length_of image) (height image) ->
  (i < height image)%nat -> (j < length_of image)%nat ->
  segment_step e image sh sw tm o = Ok tm' ->
  cell 0 (pixels tm') i j
  = if covers sh sw (Z.of_nat i) (Z.of_nat j) o
    then region_level (region_at image sh sw o)
    else cell 0 (pixels tm) i j.
Proof.
  intros Hv Hh Hsh Hsw Hshape Hi Hj.
  rewrite segment_step_unfold.
  rewrite threshold_selected_level by (apply region_at_nonempty; assumption).
  rewrite bind_Ok. intros Hok. apply Ok_inj in Hok. subst tm'.
  destruct (row_lengths_cell _ _ _ _ _ Hshape Hi Hj) as (r & x & Hr & Hx).
  rewrite (write_block_cell _ _ _ _ _ _ i j r x Hr Hx).
  replace (cell 0 (pixels tm) i j) with x
    by (unfold cell; rewrite (nth_error_nth _ _ [] Hr);
        symmetry; apply nth_error_nth; exact Hx).
  destruct o as [vo ho]. cbn [fst snd] in *.
  rewrite in_slice_covers by lia.
  destruct (covers sh sw (Z.of_nat i) (Z.of_nat j) (vo, ho)) eqn:Hc;
    [|reflexivity].
  apply covers_spec in Hc as [Hci Hcj]. cbn [fst snd] in Hci, Hcj.
  apply full_like_cell.
  - rewrite region_at_height. cbn [fst]. lia.
  - rewrite region_at_length_of. cbn [snd]. lia.
Qed.

(** After the blocks of [offsets], a pixel that only the block at [o] can
    contain holds the level of that block if the block was visited, and its
    former value if not. *)
Lemma segment_loop_cell (e : bool) (image : gray_image) (sh sw : Z)
  (offsets : list (Z * Z)) (tm tm' : gray_image) (o : Z * Z) (i j : nat) :
  1 <= sh -> 1 <= sw ->
  (i < height image)%nat -> (j < length_of image)%nat ->
  (forall o', In o' offsets ->
              0 <= fst o' < Z.of_nat (height image) /\
              0 <= snd o' < Z.of_nat (length_of image)) ->
  (forall o', In o' offsets ->
              covers sh sw (Z.of_nat i) (Z.of_nat j) o' = true -> o' = o) ->
  row_lengths (pixels tm) = repeat (length_of image) (height image) ->
  for_each (segment_step e image sh sw) offsets tm = Ok tm' ->
  cell 0 (pixels tm') i j
  = if existsb (covers sh sw (Z.of_nat i) (Z.of_nat j)) offsets
    then region_level (region_at image sh sw o)
    else cell 0 (pixels tm) i j.
Proof.
  intros Hsh Hsw Hi Hj. revert tm.
  induction offsets as [|o1 offsets IH]; intros tm Hin Huniq Hshape Hloop.
  - simpl in Hloop. injection Hloop as <-. reflexivity.
  - cbn [for_each] in Hloop.
    destruct (segment_step e image sh sw tm o1) as [tm1|err] eqn:E1;
      cbn [bind] in Hloop; [|discriminate].
    destruct (Hin o1 (or_introl eq_refl)) as [Hv Hh].
    pose proof (segment_step_cell e image sh sw tm tm1 o1 i j
                  Hv Hh Hsh Hsw Hshape Hi Hj E1) as Hcell.
    destruct (segment_step_shape _ _ _ _ _ _ _ E1) as (_ & _ & Hshape1).
    rewrite Hshape in Hshape1.
    assert (Hrest : cell 0 (pixels tm') i j
                    = if existsb (covers sh sw (Z.of_nat i) (Z.of_nat j)) offsets
                      then region_level (region_at image sh sw o)
                      else cell 0 (pixels tm1) i j).
    { apply IH; try assumption.
      - intros o' Ho'. apply Hin. right. exact Ho'.
      - intros o' Ho'. apply Huniq. right. exact Ho'. }
    rewrite Hrest, Hcell. cbn [existsb].
    destruct (covers sh sw (Z.of_nat i) (Z.of_nat j) o1) eqn:Hc; cbn [orb].
    + rewrite (Huniq o1 (or_introl eq_refl) Hc).
      destruct (existsb _ offsets); reflexivity.
    + reflexivity.
Qed.

Lemma segmented_threshold_cell (e : bool) (image : gray_image) (nv nh : Z)
  (i j : nat) :
  1 <= nv -> 1 <= nh ->
  (i < height image)%nat -> (j < length_of image)%nat ->
  let sh := segment_height (Z.of_nat (height image)) nv in
  let sw := segment_length (Z.of_nat (length_of image)) nh in
  exists mask,
    segmented_threshold e image nv nh = Ok mask /\
    cell 0 (pixels mask) i j
    = region_level
        (region_at image sh sw (aligned sh (Z.of_nat i), aligned sw (Z.of_nat j))).
Proof.
  intros Hnv Hnh Hi Hj sh sw.
  assert (Hsh : 1 <= sh).
  { unfold sh, segment_height.
    pose proof (Z.div_pos (Z.of_nat (height image)) nv ltac:(lia) ltac:(lia)). lia. }
  assert (Hsw : 1 <= sw).
  { unfold sw, segment_length.
    pose proof (Z.div_pos (Z.of_nat (length_of image)) nh ltac:(lia) ltac:(lia)). lia. }
  destruct (segmented_threshold_returns e image nv nh Hnv Hnh) as (mask & Hmask).
  exists mask. split; [exact Hmask|].
  rewrite segmented_threshold_loop in Hmask.
  destruct (Z.ltb_spec nv 1) as [?|_]; [lia|].
  destruct (Z.ltb_spec nh 1) as [?|_]; [lia|].
  fold sh sw in Hmask.
  set (o := (aligned sh (Z.of_nat i), aligned sw (Z.of_nat j))).
  assert (Hino : In o (segment_offsets (Z.of_nat (height image))
                                       (Z.of_nat (length_of image)) nv nh)).
  { apply in_grid_offsets. fold sh sw.
    split; apply aligned_offset_in_range; lia. }
  assert (Hco : covers sh sw (Z.of_nat i) (Z.of_nat j) o = true).
  { apply covers_spec. split; apply aligned_offset_covers; lia. }
  rewrite (segment_loop_cell e image sh sw
             (segment_offsets (Z.of_nat (height image))
                              (Z.of_nat (length_of image)) nv nh)
             (zeros_like image) mask o i j);
    try assumption.
  - replace (existsb _ _) with true; [reflexivity|].
    symmetry. apply existsb_exists. exists o. auto.
  - intros o' Ho'. apply (segment_offsets_inside _ _ nv nh); try lia. exact Ho'.
  - intros o' Ho' Hc'.
    apply (grid_slices_disjoint (Z.of_nat (height image)) (Z.of_nat (length_of image))
             sh sw (Z.of_nat i) (Z.of_nat j)); try assumption; lia.
  - unfold row_lengths, zeros_like; cbn [pixels rows].
    rewrite map_repeat, repeat_length. reflexivity.
Qed.

Lemma region_level_is_mask_cell (e : bool) (region : gray_image) :
  (0 < height region)%nat -> (0 < length_of region)%nat ->
  exists region_mask,
    threshold e region = Ok region_mask /\
    cell 0 (pixels region_mask) 0 0 = region_level region.
Proof.
  intros Hh Hw. exists (full_like region (selected_level region)). split.
  - apply threshold_selected_level.
    unfold num_samples, size. fold (height region) (length_of region). nia.
  - apply full_like_cell; assumption.
Qed.

(** Each cell of the mask of [segmented_threshold] holds what [threshold]
    computes on the block of the grid that contains the pixel, the block
    being clipped to the image. *)
Theorem X7_segmented_threshold_cell (empty_region_rejected : bool)
  (image : gray_image) (num_vertical_segments num_horizontal_segments : Z)
  (i j : nat) :
  1 <= num_vertical_segments -> 1 <= num_horizontal_segments ->
  (i < height image)%nat -> (j < length_of image)%nat ->
  let sh := segment_height (Z.of_nat (height image)) num_vertical_segments in
  let sw := segment_length (Z.of_nat (length_of image)) num_horizontal_segments in
  let block := region_at image sh sw
                         (aligned sh (Z.of_nat i), aligned sw (Z.of_nat j)) in
  exists mask block_mask,
    segmented_threshold empty_region_rejected image
                        num_vertical_segments num_horizontal_segments = Ok mask /\
    threshold empty_region_rejected block = Ok block_mask /\
    cell 0 (pixels mask) i j = cell 0 (pixels block_mask) 0 0.
Proof.
  intros Hnv Hnh Hi Hj sh sw block.
  destruct (segmented_threshold_cell empty_region_rejected image
              num_vertical_segments num_horizontal_segments i j Hnv Hnh Hi Hj)
    as (mask & Hmask & Hcell).
  fold sh sw block in Hcell.
  assert (Hsh : 1 <= sh).
  { unfold sh, segment_height.
    pose proof (Z.div_pos (Z.of_nat (height image)) num_vertical_segments
                  ltac:(lia) ltac:(lia)). lia. }
  assert (Hsw : 1 <= sw).
  { unfold sw, segment_length.
    pose proof (Z.div_pos (Z.of_nat (length_of image)) num_horizontal_segments
                  ltac:(lia) ltac:(lia)). lia. }
  pose proof (aligned_offset_covers sh (Z.of_nat i) ltac:(lia)) as Hai.
  pose proof (aligned_offset_covers sw (Z.of_nat j) ltac:(lia)) as Haj.
  fold (aligned sh (Z.of_nat i)) in Hai. fold (aligned sw (Z.of_nat j)) in Haj.
  assert (Hai0 : 0 <= aligned sh (Z.of_nat i))
    by (unfold aligned; apply Z.mul_nonneg_nonneg; [lia | apply Z.div_pos; lia]).
  assert (Haj0 : 0 <= aligned sw (Z.of_nat j))
    by (unfold aligned; apply Z.mul_nonneg_nonneg; [lia | apply Z.div_pos; lia]).
  destruct (region_level_is_mask_cell empty_region_rejected block)
    as (block_mask & Hblock & Hlevel).
  - unfold block. rewrite region_at_height. cbn [fst]. lia.
  - unfold block. rewrite region_at_length_of. cbn [snd]. lia.
  - exists mask, block_mask. split; [exact Hmask|]. split; [exact Hblock|].
    rewrite Hcell, Hlevel. reflexivity.
Qed.

Lemma X7_segmented_threshold_cell_witness :
  let sh := segment_height (Z.of_nat (height sample_3x4)) 2 in
  let sw := segment_length (Z.of_nat (length_of sample_3x4)) 3 in
  let block := region_at sample_3x4 sh sw
                         (aligned sh (Z.of_nat 2), aligned sw (Z.of_nat 3)) in
  (1 <= 2 /\ 1 <= 3 /\ (2 < height sample_3x4)%nat /\
   (3 < length_of sample_3x4)%nat) /\
  exists mask block_mask,
    segmented_threshold true sample_3x4 2 3 = Ok mask /\
    threshold true block = Ok block_mask /\
    cell 0 (pixels mask) 2 3 = cell 0 (pixels block_mask) 0 0.
Proof.
  assert (Hi : (2 < height sample_3x4)%nat) by (vm_compute; lia).
  assert (Hj : (3 < length_of sample_3x4)%nat) by (vm_compute; lia).
  cbv zeta. split; [split; [lia | split; [lia | split; [exact Hi | exact Hj]]]|].
  apply (X7_segmented_threshold_cell true sample_3x4 2 3 2 3);
    [lia | lia | exact Hi | exact Hj].
Defined.

(** Two pixels of the same block of the grid have equal cells in the mask of
    [segmented_threshold]. *)
Theorem X8_segmented_threshold_block_uniform (empty_region_rejected : bool)
  (image : gray_image) (num_vertical_segments num_horizontal_segments : Z)
  (i j i' j' : nat) :
  1 <= num_vertical_segments -> 1 <= num_horizontal_segments ->
  (i < height image)%nat -> (j < length_of image)%nat ->
  (i' < height image)%nat -> (j' < length_of image)%nat ->
  let sh := segment_height (Z.of_nat (height image)) num_vertical_segments in
  let sw := segment_length (Z.of_nat (length_of image)) num_horizontal_segments in
  Z.of_nat i / sh = Z.of_nat i' / sh ->
  Z.of_nat j / sw = Z.of_nat j' / sw ->
  exists mask,
    segmented_threshold empty_region_rejected image
                        num_vertical_segments num_horizontal_segments = Ok mask /\
    cell 0 (pixels mask) i j = cell 0 (pixels mask) i' j'.
Proof.
  intros Hnv Hnh Hi Hj Hi' Hj' sh sw Ei Ej.
  destruct (segmented_threshold_cell empty_region_rejected image
              num_vertical_segments num_horizontal_segments i j Hnv Hnh Hi Hj)
    as (mask & Hmask & Hcell).
  destruct (segmented_threshold_cell empty_region_rejected image
              num_vertical_segments num_horizontal_segments i' j' Hnv Hnh Hi' Hj')
    as (mask' & Hmask' & Hcell').
  rewrite Hmask in Hmask'. apply Ok_inj in Hmask'. subst mask'.
  exists mask. split; [exact Hmask|].
  rewrite Hcell, Hcell'. fold sh sw. unfold aligned. rewrite Ei, Ej. reflexivity.
Qed.

Lemma X8_segmented_threshold_block_uniform_witness :
  let sh := segment_height (Z.of_nat (height sample_3x4)) 2 in
  let sw := segment_length (Z.of_nat (length_of sample_3x4)) 3 in
  (1 <= 2 /\ 1 <= 3 /\
   (0 < height sample_3x4)%nat /\ (0 < length_of sample_3x4)%nat /\
   (1 < height sample_3x4)%nat /\ (1 < length_of sample_3x4)%nat /\
   Z.of_nat 0 / sh = Z.of_nat 1 / sh /\ Z.of_nat 0 / sw = Z.of_nat 1 / sw) /\
  exists mask,
    segmented_threshold true sample_3x4 2 3 = Ok mask /\
    cell 0 (pixels mask) 0 0 = cell 0 (pixels mask) 1 1.
Proof.
  assert (H0 : (0 < height sample_3x4)%nat) by (vm_compute; lia).
  assert (H1 : (0 < length_of sample_3x4)%nat) by (vm_compute; lia).
  assert (H2 : (1 < height sample_3x4)%nat) by (vm_compute; lia).
  assert (H3 : (1 < length_of sample_3x4)%nat) by (vm_compute; lia).
  cbv zeta. split.
  - split; [lia|]. split; [lia|]. split; [exact H0|]. split; [exact H1|].
    split; [exact H2|]. split; [exact H3|]. split; reflexivity.
  - apply (X8_segmented_threshold_block_uniform true sample_3x4 2 3 0 0 1 1);
      [lia | lia | exact H0 | exact H1 | exact H2 | exact H3
       | reflexivity | reflexivity].
Defined.

(** The mask of [segmented_threshold] has the element type and the shape of
    the image. *)
Theorem X9_segmented_threshold_shape (empty_region_rejected : bool)
  (image : gray_image) (num_vertical_segments num_horizontal_segments : Z) :
  1 <= num_vertical_segments -> 1 <= num_horizontal_segments ->
  exists mask,
    segmented_threshold empty_region_rejected image
                        num_vertical_segments num_horizontal_segments = Ok mask /\
    dtype_of mask = dtype_of image /\
    length_of mask = length_of image /\
    row_lengths (pixels mask) = repeat (length_of image) (height image).
Proof.
  intros Hnv Hnh.
  destruct (segmented_threshold_returns empty_region_rejected image
              num_vertical_segments num_horizontal_segments Hnv Hnh)
    as (mask & Hmask).
  exists mask. split; [exact Hmask|].
  rewrite segmented_threshold_loop in Hmask.
  destruct (Z.ltb_spec num_vertical_segments 1) as [?|_]; [lia|].
  destruct (Z.ltb_spec num_horizontal_segments 1) as [?|_]; [lia|].
  apply (for_each_fold
           (fun s => (dtype_of s, length_of s, row_lengths (pixels s)))
           (fun t _ => t)) in Hmask.
  - rewrite fold_left_keep in Hmask. injection Hmask as Hd Hl Hr.
    split; [exact Hd|]. split; [exact Hl|]. rewrite Hr.
    unfold row_lengths, zeros_like; cbn [pixels rows].
    rewrite map_repeat, repeat_length. reflexivity.
  - intros s o s' Hstep.
    destruct (segment_step_shape _ _ _ _ _ _ _ Hstep) as (Hd & Hl & Hr).
    rewrite Hd, Hl, Hr. reflexivity.
Qed.

Lemma X9_segmented_threshold_shape_witness :
  (1 <= 2 /\ 1 <= 3) /\
  exists mask,
    segmented_threshold false sample_3x4 2 3 = Ok mask /\
    dtype_of mask = dtype_of sample_3x4 /\
    length_of mask = length_of sample_3x4 /\
    row_lengths (pixels mask)
    = repeat (length_of sample_3x4) (height sample_3x4).
Proof.
  split; [lia|].
  apply (X9_segmented_threshold_shape false sample_3x4 2 3); lia.
Defined.

(** ** More segments than pixels *)

Lemma unit_slice_short {A} (k : nat) (l : list A) :
  (length (slice k (S k) l) <= 1)%nat.
Proof. rewrite slice_length. lia. Qed.

Lemma unit_region_samples (image : gray_image) (r0 c0 : nat) :
  (length (samples (image_slice r0 (S r0) c0 (S c0) image)) <= 1)%nat.
Proof.
  unfold samples, image_slice, slice2; cbn [pixels rows].
  pose proof (unit_slice_short r0 (rows (pixels image))) as Hrows.
  destruct (slice r0 (S r0) (rows (pixels image))) as [|r [|r' rs]];
    simpl in Hrows |- *; [lia | | lia].
  rewrite app_nil_r. apply unit_slice_short.
Qed.

Lemma short_list_uniform (l : list Z) (y : Z) :
  (length l <= 1)%nat -> In y l -> y = hd 0 l.
Proof.
  destruct l as [|x [|x' l]]; simpl; intros Hlen Hin.
  - contradiction.
  - destruct Hin as [<-|[]]. reflexivity.
  - lia.
Qed.

Lemma unit_region_level (image : gray_image) (i j : nat) :
  region_level (region_at image 1 1 (Z.of_nat i, Z.of_nat j))
  = cast (dtype_of image) (-1).
Proof.
  unfold region_level, region_at. cbn [fst snd].
  replace (Z.to_nat (Z.of_nat i + 1)) with (S i) by lia.
  replace (Z.to_nat (Z.of_nat j + 1)) with (S j) by lia.
  rewrite !Nat2Z.id.
  replace (selected_level (image_slice i (S i) j (S j) image)) with (-1);
    [reflexivity|].
  symmetry. unfold selected_level. apply all_skipped_sentinel. intros t _.
  apply (uniform_all_skipped _ _
           (hd 0 (samples (image_slice i (S i) j (S j) image)))).
  intros y Hy. apply short_list_uniform; [apply unit_region_samples | exact Hy].
Qed.

(** With more segments than rows and more segments than columns, every block
    is a single pixel, no block has a valid threshold, and each cell of the
    mask of [segmented_threshold] holds the sentinel -1 as the element type
    stores it. *)
Theorem X10_segmented_threshold_single_pixel_blocks
  (empty_region_rejected : bool) (image : gray_image)
  (num_vertical_segments num_horizontal_segments : Z) :
  Z.of_nat (height image) < num_vertical_segments ->
  Z.of_nat (length_of image) < num_horizontal_segments ->
  exists mask,
    segmented_threshold empty_region_rejected image
                        num_vertical_segments num_horizontal_segments = Ok mask /\
    forall i j, (i < height image)%nat -> (j < length_of image)%nat ->
                cell 0 (pixels mask) i j = 2 ^ width_of (dtype_of image) - 1.
Proof.
  intros Hnv Hnh.
  destruct (segmented_threshold_returns empty_region_rejected image
              num_vertical_segments num_horizontal_segments)
    as (mask & Hmask); [lia | lia |].
  exists mask. split; [exact Hmask|]. intros i j Hi Hj.
  destruct (segmented_threshold_cell empty_region_rejected image
              num_vertical_segments num_horizontal_segments i j)
    as (mask' & Hmask' & Hcell); [lia | lia | exact Hi | exact Hj |].
  rewrite Hmask in Hmask'. apply Ok_inj in Hmask'. subst mask'.
  rewrite Hcell. unfold segment_height, segment_length.
  rewrite !Z.div_small by lia. cbn [Z.add].
  unfold aligned. rewrite !Z.div_1_r, !Z.mul_1_l.
  rewrite unit_region_level. destruct (dtype_of image); reflexivity.
Qed.

Lemma X10_segmented_threshold_single_pixel_blocks_witness :
  (Z.of_nat (height sample_3x4) < 4 /\ Z.of_nat (length_of sample_3x4) < 5) /\
  exists mask,
    segmented_threshold true sample_3x4 4 5 = Ok mask /\
    forall i j, (i < height sample_3x4)%nat -> (j < length_of sample_3x4)%nat ->
                cell 0 (pixels mask) i j = 2 ^ width_of (dtype_of sample_3x4) - 1.
Proof.
  assert (Hh : Z.of_nat (height sample_3x4) < 4) by (vm_compute; reflexivity).
  assert (Hw : Z.of_nat (length_of sample_3x4) < 5) by (vm_compute; reflexivity).
  split; [split; [exact Hh | exact Hw]|].
  exact (X10_segmented_threshold_single_pixel_blocks true sample_3x4 4 5 Hh Hw).
Defined.

(** ** The result of [sliding_window_threshold], cell by cell *)

Lemma window_step_unfold (e : bool) (image : gray_image) (wh wl : Z)
  (tm : ndarray float) (nr : gray_image) (o : Z * Z) :
  window_step e image wh wl (tm, nr) o
  = bind (threshold e (region_at image wh wl o))
         (fun mask =>
            Ok (add_to_block tm (mean mask)
                             (Z.to_nat (fst o)) (Z.to_nat (fst o + wh))
                             (Z.to_nat (snd o)) (Z.to_nat (snd o + wl)),
                count_window wh wl nr o)).
Proof. destruct o. reflexivity. Qed.









Lemma fold_count_window_row_lengths (wh wl : Z) (offsets : list (Z * Z))
  (nr : gray_image) :
  row_lengths (pixels (fold_left (count_window wh wl) offsets nr))
  = row_lengths (pixels nr).
Proof.
  revert nr; induction offsets as [|o offsets IH]; intros nr; [reflexivity|].
  cbn [fold_left]. rewrite IH. apply count_window_row_lengths.
Qed.

Lemma array_map2_row_lengths {A B C} (f : A -> B -> C)
  (a : ndarray A) (b : ndarray B) (w h : nat) :
  row_lengths a = repeat w h -> row_lengths b = repeat w h ->
  row_lengths (array_map2 f a b) = repeat w h.
Proof.
  unfold row_lengths, array_map2; cbn [rows].
  generalize (rows a) as la. generalize (rows b) as lb. clear a b.
  induction h as [|h IH]; intros lb la Ha Hb.
  - destruct la; [reflexivity | discriminate].
  - destruct la as [|ra la]; [discriminate|].
    destruct lb as [|rb lb]; [discriminate|].
    cbn [repeat map combine] in *. injection Ha as Hra Hla.
    injection Hb as Hrb Hlb.
    rewrite (IH lb la Hla Hlb). f_equal.
    rewrite length_map, length_combine. lia.
Qed.

Lemma window_step_ncols (e : bool) (image : gray_image) (wh wl : Z)
  (acc acc' : ndarray float * gray_image) (o : Z * Z) :
  window_step e image wh wl acc o = Ok acc' ->
  ncols (fst acc') = ncols (fst acc).
Proof.
  destruct acc as [tm nr]. rewrite window_step_unfold.
  destruct (threshold e _) as [m|err]; [|discriminate].
  rewrite bind_Ok. intros H. apply Ok_inj in H. subst acc'. reflexivity.
Qed.

Lemma accumulate_shapes (e : bool) (image : gray_image) (wh wl vs hs : Z)
  (acc : ndarray float * gray_image) :
  sliding_window_accumulate e image wh wl vs hs = Ok acc ->
  ncols (fst acc) = length_of image /\
  row_lengths (fst acc) = repeat (length_of image) (height image) /\
  row_lengths (pixels (snd acc)) = repeat (length_of image) (height image).
Proof.
  intros Hacc. split; [|split].
  - unfold sliding_window_accumulate in Hacc.
    apply (for_each_fold (fun s => ncols (fst s)) (fun t _ => t)) in Hacc.
    + rewrite Hacc, fold_left_keep. reflexivity.
    + intros s o s'. apply window_step_ncols.
  - exact (accumulate_shape e image wh wl vs hs acc Hacc).
  - rewrite (accumulate_counts e image wh wl vs hs acc Hacc).
    rewrite fold_count_window_row_lengths.
    unfold row_lengths, zeros_like; cbn [pixels rows].
    rewrite map_repeat, repeat_length. reflexivity.
Qed.

(** When no stride exceeds its window, [sliding_window_threshold] returns an
    array of the shape of the image. *)
Theorem X11_sliding_window_threshold_shape (empty_region_rejected : bool)
  (image : gray_image)
  (window_height window_length vertical_stride horizontal_stride : Z) :
  1 <= vertical_stride -> vertical_stride <= window_height ->
  1 <= horizontal_stride -> horizontal_stride <= window_length ->
  exists result,
    sliding_window_threshold empty_region_rejected image window_height
      window_length vertical_stride horizontal_stride = Ok result /\
    ncols result = length_of image /\
    row_lengths result = repeat (length_of image) (height image).
Proof.
  intros Hvs Hvw Hhs Hhw.
  destruct (sliding_window_returns empty_region_rejected image window_height
              window_length vertical_stride horizontal_stride Hvs Hvw Hhs Hhw)
    as (acc & Hacc & Hr).
  destruct (accumulate_shapes _ _ _ _ _ _ _ Hacc) as (Hn & Htm & Hnr).
  eexists. split; [exact Hr|]. split; [exact Hn|].
  apply array_map2_row_lengths; assumption.
Qed.

Lemma X11_sliding_window_threshold_shape_witness :
  (1 <= 1 /\ 1 <= 2 /\ 1 <= 2 /\ 2 <= 2) /\
  exists result,
    sliding_window_threshold true sample_3x4 2 2 1 2 = Ok result /\
    ncols result = length_of sample_3x4 /\
    row_lengths result = repeat (length_of sample_3x4) (height sample_3x4).
Proof.
  split; [lia|].
  apply (X11_sliding_window_threshold_shape true sample_3x4 2 2 1 2); lia.
Defined.

(** When the loops of [sliding_window_threshold] end, each cell of
    [num_repetitions] holds the number of windows that contain its pixel,
    reduced modulo 2^width of the element type of the image. *)
Theorem X12_num_repetitions_counts_windows (empty_region_rejected : bool)
  (image : gray_image)
  (window_height window_length vertical_stride horizontal_stride : Z) :
  1 <= vertical_stride -> vertical_stride <= window_height ->
  1 <= horizontal_stride -> horizontal_stride <= window_length ->
  exists threshold_mask num_repetitions,
    sliding_window_accumulate empty_region_rejected image window_height
      window_length vertical_stride horizontal_stride
    = Ok (threshold_mask, num_repetitions) /\
    forall i j, (i < height image)%nat -> (j < length_of image)%nat ->
      cell 0 (pixels num_repetitions) i j
      = Z.of_nat
          (length (filter (covers window_height window_length
                                  (Z.of_nat i) (Z.of_nat j))
                          (window_offsets (Z.of_nat (height image))
                                          (Z.of_nat (length_of image))
                                          window_height window_length
                                          vertical_stride horizontal_stride)))
        mod 2 ^ width_of (dtype_of image).
Proof.
  intros Hvs Hvw Hhs Hhw.
  destruct (sliding_window_returns empty_region_rejected image window_height
              window_length vertical_stride horizontal_stride Hvs Hvw Hhs Hhw)
    as ([tm nr] & Hacc & _).
  exists tm, nr. split; [exact Hacc|]. intros i j Hi Hj.
  exact (num_repetitions_cell empty_region_rejected image window_height
           window_length vertical_stride horizontal_stride (tm, nr) i j
           Hvs Hhs Hacc Hi Hj).
Qed.

Lemma X12_num_repetitions_counts_windows_witness :
  (1 <= 1 /\ 1 <= 2 /\ 1 <= 2 /\ 2 <= 2) /\
  exists threshold_mask num_repetitions,
    sliding_window_accumulate true sample_3x4 2 2 1 2
    = Ok (threshold_mask, num_repetitions) /\
    forall i j, (i < height sample_3x4)%nat -> (j < length_of sample_3x4)%nat ->
      cell 0 (pixels num_repetitions) i j
      = Z.of_nat
          (length (filter (covers 2 2 (Z.of_nat i) (Z.of_nat j))
                          (window_offsets (Z.of_nat (height sample_3x4))
                                          (Z.of_nat (length_of sample_3x4))
                                          2 2 1 2)))
        mod 2 ^ width_of (dtype_of sample_3x4).
Proof.
  split; [lia|].
  apply (X12_num_repetitions_counts_windows true sample_3x4 2 2 1 2); lia.
Defined.



(** With strides that do not exceed the windows and windows that fit in the
    image, every pixel lies in a window that [sliding_window_threshold]
    evaluates, and that window starts inside the image. *)
Theorem X13_every_pixel_in_a_window (image : gray_image)
  (window_height window_length vertical_stride horizontal_stride : Z)
  (i j : nat) :
  1 <= vertical_stride -> vertical_stride <= window_height ->
  window_height <= Z.of_nat (height image) ->
  1 <= horizontal_stride -> horizontal_stride <= window_length ->
  window_length <= Z.of_nat (length_of image) ->
  (i < height image)%nat -> (j < length_of image)%nat ->
  exists offset,
    In offset (window_offsets (Z.of_nat (height image))
                              (Z.of_nat (length_of image))
                              window_height window_length
                              vertical_stride horizontal_stride) /\
    covers window_height window_length (Z.of_nat i) (Z.of_nat j) offset = true /\
    0 <= fst offset < Z.of_nat (height image) /\
    0 <= snd offset < Z.of_nat (length_of image).
Proof.
  intros Hvs Hvw HwH Hhs Hhw HwW Hi Hj.
  apply window_covers_pixel; lia.
Qed.

Lemma X13_every_pixel_in_a_window_witness :
  (1 <= 1 /\ 1 <= 2 /\ 2 <= Z.of_nat (height sample_3x4) /\
   1 <= 2 /\ 2 <= 2 /\ 2 <= Z.of_nat (length_of sample_3x4) /\
   (2 < height sample_3x4)%nat /\ (3 < length_of sample_3x4)%nat) /\
  exists offset,
    In offset (window_offsets (Z.of_nat (height sample_3x4))
                              (Z.of_nat (length_of sample_3x4)) 2 2 1 2) /\
    covers 2 2 (Z.of_nat 2) (Z.of_nat 3) offset = true /\
    0 <= fst offset < Z.of_nat (height sample_3x4) /\
    0 <= snd offset < Z.of_nat (length_of sample_3x4).
Proof.
  assert (HH : 2 <= Z.of_nat (height sample_3x4)) by (vm_compute; discriminate).
  assert (HW : 2 <= Z.of_nat (length_of sample_3x4)) by (vm_compute; discriminate).
  assert (Hi : (2 < height sample_3x4)%nat) by (vm_compute; lia).
  assert (Hj : (3 < length_of sample_3x4)%nat) by (vm_compute; lia).
  split.
  - split; [lia|]. split; [lia|]. split; [exact HH|]. split; [lia|].
    split; [lia|]. split; [exact HW|]. split; [exact Hi | exact Hj].
  - apply (X13_every_pixel_in_a_window sample_3x4 2 2 1 2 2 3);
      [lia | lia | exact HH | lia | lia | exact HW | exact Hi | exact Hj].
Defined.

(** ** The size and the number of the blocks *)

Lemma segment_height_ceiling_witness :
  1 <= 3 /\
  segment_height 7 3 = ceil_div 7 3 + (if 7 mod 3 =? 0 then 1 else 0).
Proof.
  split; [lia|]. apply (segment_height_ceiling 7 3). lia.
Defined.

Lemma py_range_length (stop step : Z) :
  length (py_range stop step) = Z.to_nat ((stop + step - 1) / step).
Proof. unfold py_range. rewrite length_map, length_seq. reflexivity. Qed.

Lemma grid_offsets_length (vstop vstep hstop hstep : Z) :
  length (grid_offsets vstop vstep hstop hstep)
  = (length (py_range vstop vstep) * length (py_range hstop hstep))%nat.
Proof.
  unfold grid_offsets.
  induction (py_range vstop vstep) as [|v vs IH]; [reflexivity|].
  cbn [flat_map]. rewrite length_app, length_map, IH. reflexivity.
Qed.

Lemma segment_rows_bound (H n : Z) :
  0 <= H -> 1 <= n ->
  (H + (H / n + 1) - 1) / (H / n + 1) <= n.
Proof.
  intros HH Hn.
  pose proof (Z.div_pos H n HH ltac:(lia)) as Hq.
  pose proof (Z.div_mod H n ltac:(lia)) as Hdm.
  pose proof (Z.mod_pos_bound H n ltac:(lia)) as Hm.
  apply Z.lt_succ_r. apply Z.div_lt_upper_bound; [lia|]. nia.
Qed.

(** [segmented_threshold] never visits more blocks than the number of
    segments asked for: at most [num_vertical_segments] rows of blocks and
    [num_horizontal_segments] columns of blocks. *)
Theorem X16_segment_count_bound
  (image_height image_length num_vertical_segments num_horizontal_segments : Z) :
  0 <= image_height -> 0 <= image_length ->
  1 <= num_vertical_segments -> 1 <= num_horizontal_segments ->
  Z.of_nat (length (segment_offsets image_height image_length
                                    num_vertical_segments num_horizontal_segments))
  <= num_vertical_segments * num_horizontal_segments.
Proof.
  intros HH HW Hnv Hnh. unfold segment_offsets.
  rewrite grid_offsets_length, !py_range_length.
  unfold segment_height, segment_length.
  pose proof (segment_rows_bound image_height num_vertical_segments HH Hnv) as Hr.
  pose proof (segment_rows_bound image_length num_horizontal_segments HW Hnh) as Hc.
  set (a := (image_height + (image_height / num_vertical_segments + 1) - 1)
            / (image_height / num_vertical_segments + 1)) in *.
  set (b := (image_length + (image_length / num_horizontal_segments + 1) - 1)
            / (image_length / num_horizontal_segments + 1)) in *.
  rewrite Nat2Z.inj_mul.
  destruct (Z_le_gt_dec 0 a) as [Ha|Ha]; destruct (Z_le_gt_dec 0 b) as [Hb|Hb].
  - rewrite !Z2Nat.id by assumption. nia.
  - replace (Z.to_nat b) with 0%nat by lia. nia.
  - replace (Z.to_nat a) with 0%nat by lia. nia.
  - replace (Z.to_nat a) with 0%nat by lia. nia.
Qed.

Lemma X16_segment_count_bound_witness :
  (0 <= 4 /\ 0 <= 4 /\ 1 <= 4 /\ 1 <= 4) /\
  Z.of_nat (length (segment_offsets 4 4 4 4)) <= 4 * 4.
Proof.
  split; [lia|]. apply (X16_segment_count_bound 4 4 4 4); lia.
Defined.
